(** * floydpaste: the paste service of [main.py]

    A shallow embedding of the request handlers of [main.py] (the [pastes]
    table, [create_paste], [top_pastes], [view_paste], [recent_pastes],
    [ping]) and the properties of the paste model proved about them.

    Handlers are written in a small state-and-error monad over a [World]
    holding the rows of the [pastes] table, the UTC clock and the number of
    random draws made so far.  What the operating system supplies (random
    bytes, the time a step takes) and what the release of the web framework
    decides (a required field sent empty) is read from an [Env] oracle.  Every
    handler awaits a single database statement; requests are served one
    after the other. *)

From Stdlib Require Import List String Ascii ZArith NArith Lia Bool.
From Stdlib Require Import Permutation Sorted.
Import ListNotations.

Local Open Scope string_scope.
Local Open Scope Z_scope.

(** ** The [pastes] table *)

(** One row of [pastes]; every column is [nullable=False].  A text is kept as
    the bytes of its UTF-8 encoding, which is what a string literal holds.
    [created_at] is a [DateTime], kept as a count of microseconds. *)
Record Paste : Type := mkPaste {
  id         : string;
  content    : string;
  title      : string;
  syntax     : string;
  expires    : string;
  visibility : string;
  created_at : Z
}.

(** ** Identifier generation: [uuid.uuid4().hex[:8]] *)

Module Uuid.

(** [os.urandom(16)] read big-endian: the draw reduced to 128 bits. *)
Definition from_bytes16 (draw : N) : N := (draw mod 2 ^ 128)%N.

(** [UUID(bytes=..., version=4)]: the variant bits are set to RFC 4122 and
    the version nibble to 4.
    [int &= ~(0xc000 << 48); int |= 0x8000 << 48;
     int &= ~(0xf000 << 64); int |= version << 76]. *)
Definition set_version4 (int : N) : N :=
  let int := N.ldiff int (N.shiftl 0xc000 48) in
  let int := N.lor int (N.shiftl 0x8000 48) in
  let int := N.ldiff int (N.shiftl 0xf000 64) in
  N.lor int (N.shiftl 4 76).

Definition uuid4_of (draw : N) : N := set_version4 (from_bytes16 draw).

Definition hexdigit (d : N) : ascii :=
  nth (N.to_nat d) (list_ascii_of_string "0123456789abcdef") "0"%char.

(** The [i]-th hexadecimal digit of [n], counted from the least
    significant one. *)
Definition nibble (n : N) (i : nat) : N :=
  (N.shiftr n (4 * N.of_nat i) mod 16)%N.

(** [UUID.hex] is ['%032x' % self.int]: 32 digits, most significant
    first, padded with zeros.  [self.int] is below [2^128]
    (see [uuid4_of_range]), so no digit is lost. *)
Definition hex (int : N) : list ascii :=
  map (fun i => hexdigit (nibble int i)) (rev (seq 0 32)).

(** [u.hex[:n]] *)
Definition hex_prefix (n : nat) (int : N) : string :=
  string_of_list_ascii (firstn n (hex int)).

(** [uuid.uuid4().hex[:8]] for a given draw of random bytes. *)
Definition paste_id_of (draw : N) : string := hex_prefix 8 (uuid4_of draw).

Definition is_lower_hex (c : ascii) : bool :=
  let n := nat_of_ascii c in
  ((48 <=? n)%nat && (n <=? 57)%nat) || ((97 <=? n)%nat && (n <=? 102)%nat).

(** Reading a hexadecimal numeral back, [int(s, 16)]. *)
Definition hexvalue (c : ascii) : N :=
  let n := N_of_ascii c in
  if (n <? 58)%N then (n - 48)%N else (n - 87)%N.

Definition of_hex (s : list ascii) : N :=
  fold_left (fun acc c => (16 * acc + hexvalue c)%N) s 0%N.

End Uuid.

(** ** The world the handlers run in *)

Record World : Type := mkWorld {
  table : list Paste;   (* rows of [pastes], in storage order *)
  clock : Z;            (* the UTC clock, in microseconds *)
  draws : nat           (* calls of [os.urandom] made so far *)
}.

(** What the deployment decides: the bytes of the [k]-th random draw, the
    time taken by a step that starts at instant [t], and what the installed
    release of FastAPI makes of a required form field that is sent empty
    ([main.py] pins no release: some take the field for missing, some bind
    the empty string).  Durations are natural numbers: the clock is never
    set back while a handler runs. *)
Record Env : Type := mkEnv {
  urandom : nat -> N;
  latency : Z -> N;
  empty_required_is_missing : bool
}.

(** What a handler can raise, and the status the ASGI stack answers with. *)
Inductive Failure : Type :=
| RequestValidationError (field : string)            (* a required form field is missing *)
| HTTPException (status_code : nat) (detail : string)
| IntegrityError (key : string)                      (* primary key violated on insert *)
| DataError.                                         (* a value PostgreSQL does not store *)

(** [{"id": ..., "title": ...}] *)
Record Entry : Type := mkEntry {
  entry_id    : string;
  entry_title : string
}.

(** The context handed to [paste.html] (the [request] apart). *)
Record PasteContext : Type := mkPasteContext {
  ctx_paste_id   : string;
  ctx_title      : string;
  ctx_content    : string;
  ctx_syntax     : string;
  ctx_expires    : string;
  ctx_visibility : string;
  ctx_created_at : Z
}.

Inductive Body : Type :=
| IndexPage                          (* [index.html] *)
| Url (url : string)                 (* [{"url": ...}] *)
| Entries (l : list Entry)
| PastePage (ctx : PasteContext)     (* [paste.html] *)
| StatusAlive.                       (* [{"status": "alive"}] *)

Definition status_of (r : Failure + Body) : nat :=
  match r with
  | inr _ => 200
  | inl (RequestValidationError _) => 422
  | inl (HTTPException code _) => code
  | inl (IntegrityError _) => 500
  | inl DataError => 500
  end%nat.

(** The form fields of a [POST /api/paste] as the request sends them:
    [None] for a field that is absent, [Some ""] for one that is sent
    empty. *)
Record Form : Type := mkForm {
  form_content    : option string;
  form_title      : option string;
  form_syntax     : option string;
  form_expires    : option string;
  form_visibility : option string
}.

(** ** State and error monad *)

Definition M (A : Type) : Type := World -> (Failure + A) * World.

Definition ret {A : Type} (a : A) : M A := fun w => (inr a, w).

Definition raise {A : Type} (e : Failure) : M A := fun w => (inl e, w).

Definition bind {A B : Type} (m : M A) (k : A -> M B) : M B :=
  fun w =>
    match m w with
    | (inl e, w') => (inl e, w')
    | (inr a, w') => k a w'
    end.

Declare Scope handler_scope.
Delimit Scope handler_scope with handler.
Notation "x <- m ;; k" := (bind m (fun x => k))
  (at level 100, m at next level, right associativity) : handler_scope.
Notation "'await' m ;; k" := (bind m (fun _ => k))
  (at level 100, m at next level, right associativity) : handler_scope.

(** ** [ORDER BY key DESC] *)

Section OrderBy.

Variable key : Paste -> Z.

(** [x] goes before the first row whose key is not larger: rows with equal
    keys keep their storage order. *)
Fixpoint insert_desc (x : Paste) (l : list Paste) : list Paste :=
  match l with
  | [] => [x]
  | y :: l' => if key y <=? key x then x :: y :: l' else y :: insert_desc x l'
  end.

Fixpoint order_by_desc (rows : list Paste) : list Paste :=
  match rows with
  | [] => []
  | x :: rows' => insert_desc x (order_by_desc rows')
  end.

Definition sorted_desc (l : list Paste) : Prop :=
  StronglySorted (fun a b => key b <= key a) l.

(** SQL leaves the order of rows with equal keys open.  [out] is an answer
    to [ORDER BY key DESC LIMIT limit] over [rows] when it is the first
    [limit] rows of some arrangement of [rows] with descending keys. *)
Definition order_by_limit (limit : nat) (rows out : list Paste) : Prop :=
  exists l, Permutation rows l /\ sorted_desc l /\ out = firstn limit l.

End OrderBy.

(** A byte [10xxxxxx] continues a character of several bytes. *)
Definition is_continuation (c : ascii) : bool :=
  let n := nat_of_ascii c in (128 <=? n)%nat && (n <=? 191)%nat.

(** The number of characters of a text: in UTF-8 every character has one
    byte that is not a continuation byte, its first. *)
Fixpoint char_length (s : string) : nat :=
  match s with
  | EmptyString => O
  | String c s' => if is_continuation c then char_length s' else S (char_length s')
  end.

(** [func.length(pastes.c.content)]: PostgreSQL counts characters. *)
Definition content_length (p : Paste) : Z := Z.of_nat (char_length (content p)).

(** The columns [pastes.c.id, pastes.c.title] of a row. *)
Definition id_title (p : Paste) : string * string := (id p, title p).

Definition entry_of (r : string * string) : Entry := mkEntry (fst r) (snd r).

Definition has_id (i : string) (p : Paste) : bool := String.eqb (id p) i.

(** Whether a text holds the character U+0000. *)
Definition has_nul (s : string) : bool :=
  existsb (fun c => Ascii.eqb c zero) (list_ascii_of_string s).

(** PostgreSQL stores no text that holds U+0000: an insert with such a value
    fails. *)
Definition pg_accepts (row : Paste) : bool :=
  negb (has_nul (id row) || has_nul (content row) || has_nul (title row) ||
        has_nul (syntax row) || has_nul (expires row) || has_nul (visibility row)).

(** No field that the request sends holds U+0000. *)
Definition form_storable (form : Form) : bool :=
  forallb (fun v => match v with Some s => negb (has_nul s) | None => true end)
    [form_content form; form_title form; form_syntax form;
     form_expires form; form_visibility form].

(** Two tables with the same rows in the same places, the [visibility]
    column apart. *)
Definition same_but_visibility (p q : Paste) : Prop :=
  id p = id q /\ content p = content q /\ title p = title q /\
  syntax p = syntax q /\ expires p = expires q /\ created_at p = created_at q.

Definition differ_only_in_visibility (t1 t2 : list Paste) : Prop :=
  Forall2 same_but_visibility t1 t2.

(** ** The handlers of [main.py] *)

Section Service.

Variable env : Env.

Local Open Scope handler_scope.

(** A step that takes time: the clock moves on by its duration. *)
Definition elapse (w : World) : World :=
  mkWorld (table w) (clock w + Z.of_N (latency env (clock w))) (draws w).

(** [uuid.uuid4()]: one draw of 16 random bytes. *)
Definition uuid4 : M N :=
  fun w =>
    (inr (Uuid.uuid4_of (urandom env (draws w))),
     elapse (mkWorld (table w) (clock w) (S (draws w)))).

(** [datetime.utcnow()] *)
Definition utcnow : M Z := fun w => (inr (clock w), w).

(** [database.execute(pastes.insert().values(...))]: [id] is the primary
    key, so a row whose [id] is already there is refused; a row with a value
    that PostgreSQL does not store is refused too.  A refused insert leaves
    the table as it was. *)
Definition execute_insert (row : Paste) : M unit :=
  fun w =>
    if existsb (has_id (id row)) (table w)
    then (inl (IntegrityError (id row)), elapse w)
    else if pg_accepts row
    then (inr tt, elapse (mkWorld (table w ++ [row]) (clock w) (draws w)))
    else (inl DataError, elapse w).

(** [database.fetch_one(select([pastes]).where(pastes.c.id == paste_id))] *)
Definition fetch_one_by_id (paste_id : string) : M (option Paste) :=
  fun w => (inr (find (has_id paste_id) (table w)), elapse w).

(** [database.fetch_all(select([pastes.c.id, pastes.c.title])
      .order_by(key.desc()).limit(limit))] *)
Definition fetch_all_id_title (key : Paste -> Z) (limit : nat)
  : M (list (string * string)) :=
  fun w =>
    (inr (map id_title (firstn limit (order_by_desc key (table w)))), elapse w).

(** A parameter declared [Form(...)]: required.  A field that is absent is
    missing, and the request is answered 422 before the handler runs.  A
    field that is sent empty is missing too on the releases of FastAPI
    where [empty_required_is_missing]; the others bind the empty string. *)
Definition Form_required (field : string) (v : option string) : M string :=
  match v with
  | None => raise (RequestValidationError field)
  | Some s =>
      if String.eqb s "" && empty_required_is_missing env
      then raise (RequestValidationError field)
      else ret s
  end.

(** A parameter declared [Form(default)]: FastAPI binds the default for a
    field that is absent and for a field that is sent empty. *)
Definition Form_default (default : string) (v : option string) : string :=
  match v with
  | None => default
  | Some s => if String.eqb s "" then default else s
  end.

(** [GET /] *)
Definition index : M Body := ret IndexPage.

(** [POST /api/paste] *)
Definition create_paste (form : Form) : M Body :=
  content <- Form_required "content" (form_content form) ;;
  let title := Form_default "Untitled Paste" (form_title form) in
  let syntax := Form_default "none" (form_syntax form) in
  let expires := Form_default "never" (form_expires form) in
  let visibility := Form_default "public" (form_visibility form) in
  u <- uuid4 ;;
  let paste_id := Uuid.hex_prefix 8 u in
  now <- utcnow ;;
  await execute_insert
    (mkPaste paste_id content title syntax expires visibility now) ;;
  ret (Url ("/paste/" ++ paste_id)).

(** [GET /api/top] *)
Definition top_pastes : M Body :=
  rows <- fetch_all_id_title content_length 10 ;;
  ret (Entries (map entry_of rows)).

(** [GET /paste/{paste_id}] *)
Definition view_paste (paste_id : string) : M Body :=
  row <- fetch_one_by_id paste_id ;;
  match row with
  | None => raise (HTTPException 404 "Paste not found")
  | Some row =>
      ret (PastePage
             (mkPasteContext (id row) (title row) (content row) (syntax row)
                (expires row) (visibility row) (created_at row)))
  end.

(** [GET /api/recent] *)
Definition recent_pastes : M Body :=
  rows <- fetch_all_id_title created_at 10 ;;
  ret (Entries (map entry_of rows)).

(** [GET /ping] *)
Definition ping : M Body := ret StatusAlive.

(** The routes. *)
Inductive Request : Type :=
| GET_index
| POST_api_paste (form : Form)
| GET_api_top
| GET_paste (paste_id : string)
| GET_api_recent
| GET_ping.

Definition handle (r : Request) : M Body :=
  match r with
  | GET_index => index
  | POST_api_paste form => create_paste form
  | GET_api_top => top_pastes
  | GET_paste paste_id => view_paste paste_id
  | GET_api_recent => recent_pastes
  | GET_ping => ping
  end.

(** Requests served one after the other, with their responses. *)
Fixpoint serve (rs : list Request) (w : World)
  : list (Failure + Body) * World :=
  match rs with
  | [] => ([], w)
  | r :: rs' =>
      let (resp, w1) := handle r w in
      let (resps, w2) := serve rs' w1 in
      (resp :: resps, w2)
  end.

(** The ids issued by a run: those of the urls answered to creations. *)
Definition issued (i : string) (resps : list (Failure + Body)) : Prop :=
  In (inr (Url ("/paste/" ++ i))) resps.

(** The admissible answers of the two listings over a table, whatever the
    order the engine gives to rows with equal keys. *)
Definition listing_answer (key : Paste -> Z) (t : list Paste) (b : Body) : Prop :=
  exists out, order_by_limit key 10 t out /\
              b = Entries (map entry_of (map id_title out)).

End Service.

(** A run starts on an empty table. *)
Definition initial (now : Z) : World := mkWorld [] now 0.

(** ** Sample inputs *)

(** Every draw is zero and every step takes one microsecond. *)
Definition quiet_env : Env := mkEnv (fun _ => 0%N) (fun _ => 1%N) true.


(** The first draw is zero, the later ones have their top bit set. *)
Definition fresh_later_env : Env :=
  mkEnv (fun k => match k with O => 0%N | S _ => (2 ^ 127)%N end) (fun _ => 1%N) true.

Definition hello_form : Form := mkForm (Some "hello world") None None None None.


(** Content and an empty title, as in [content=x&title=]. *)
Definition empty_title_form : Form := mkForm (Some "x") (Some "") None None None.

(** A title given, a syntax sent empty, no expires, a visibility given. *)
Definition note_form : Form :=
  mkForm (Some "€€") (Some "Euro") (Some "") None (Some "private").

(** Content with the character U+0000 in it. *)
Definition nul_form : Form :=
  mkForm (Some (String "a" (String zero "b"))) None None None None.


Definition zero_row : Paste :=
  mkPaste "00000000" "first" "Untitled Paste" "none" "never" "public" 5.


Definition note_row : Paste :=
  mkPaste "80000000" "€€" "Euro" "none" "never" "private" 13.


(** A creation that collides, one that does not, a lookup and a listing. *)
Definition mixed_run : list Request :=
  [POST_api_paste hello_form; POST_api_paste note_form;
   GET_paste "00000000"; GET_api_recent].

(** The [k]-th draw has [k] in its top 32 bits: the ids count up. *)
Definition counting_env : Env :=
  mkEnv (fun k => (N.of_nat k * 2 ^ 96)%N) (fun _ => 1%N) true.

Fixpoint xs (n : nat) : string :=
  match n with
  | O => ""
  | S n' => String "x" (xs n')
  end.

(** Eleven creations in sequence, with contents of 1, 2, ..., 11 characters. *)
Definition eleven_creations : list Request :=
  map (fun n => POST_api_paste (mkForm (Some (xs (S n))) None None None None))
    (seq 0 11).

Definition private_zero_row : Paste :=
  mkPaste "00000000" "first" "Untitled Paste" "none" "never" "private" 5.

(** ** Vocabulary of the further properties *)

(** An id of the shape [create_paste] makes: 8 characters among 0-9, a-f. *)
Definition well_formed_id (s : string) : bool :=
  (String.length s =? 8)%nat && forallb Uuid.is_lower_hex (list_ascii_of_string s).

(** The responses that announce a new paste. *)
Definition is_created (resp : Failure + Body) : bool :=
  match resp with
  | inr (Url _) => true
  | _ => false
  end.

(** The context [view_paste] builds from a row. *)
Definition context_of (row : Paste) : PasteContext :=
  mkPasteContext (id row) (title row) (content row) (syntax row)
    (expires row) (visibility row) (created_at row).

(** [{"id": r["id"], "title": r["title"]}] for the row of a paste. *)
Definition listed (p : Paste) : Entry := mkEntry (id p) (title p).

(** Two rows that a listing ordered by [key] cannot tell apart. *)
Definition same_listed (key : Paste -> Z) (p q : Paste) : Prop :=
  id p = id q /\ title p = title q /\ key p = key q.

(** The 32 bits of a draw that end up in the id. *)
Definition top32 (draw : N) : N := (draw mod 2 ^ 128 / 2 ^ 96)%N.

(** The id made from the [k]-th draw. *)
Definition kth_id (env : Env) (k : nat) : string :=
  Uuid.paste_id_of (urandom env k).

(** The first four bytes of the [k]-th draw. *)
Definition kth_top32 (env : Env) (k : nat) : N := top32 (urandom env k).

(** * Properties *)

(** ** Identifiers *)

Example hex_of_sample :
  string_of_list_ascii (Uuid.hex (Uuid.uuid4_of 0x0123456789abcdef0123456789abcdef))
  = "0123456789ab4def8123456789abcdef".
Proof. reflexivity. Qed.

Example paste_id_of_sample :
  Uuid.paste_id_of 0xdeadbeef000000000000000000000000 = "deadbeef".
Proof. reflexivity. Qed.

Lemma uuid4_of_range (draw : N) : (Uuid.uuid4_of draw < 2 ^ 128)%N.
Proof.
  unfold Uuid.uuid4_of, Uuid.set_version4, Uuid.from_bytes16.
  assert (Hd : (draw mod 2 ^ 128 < 2 ^ 128)%N) by (apply N.mod_upper_bound; discriminate).
  set (x := (draw mod 2 ^ 128)%N) in *. clearbody x.
  assert (small : forall a, (a < 2 ^ 128)%N -> forall k, (128 <= k)%N -> N.testbit a k = false).
  { intros a Ha k Hk. destruct (N.eq_dec a 0) as [->|Hz]; [apply N.bits_0|].
    apply N.bits_above_log2. apply N.log2_lt_pow2 in Ha; lia. }
  assert (big : forall a, (forall k, (128 <= k)%N -> N.testbit a k = false) -> (a < 2 ^ 128)%N).
  { intros a Ha. destruct (N.eq_dec a 0) as [->|Hz]; [reflexivity|].
    apply N.log2_lt_pow2; [lia|].
    destruct (N.lt_ge_cases (N.log2 a) 128) as [Hl|Hl]; [exact Hl|].
    specialize (Ha _ Hl). rewrite N.bit_log2 in Ha by exact Hz. discriminate. }
  apply big. intros k Hk.
  repeat (rewrite N.lor_spec || rewrite N.ldiff_spec).
  rewrite (small x Hd k Hk).
  rewrite (small (N.shiftl 0x8000 48)), (small (N.shiftl 4 76))
    by (try reflexivity; exact Hk).
  reflexivity.
Qed.

Lemma hexdigit_lower_hex (d : N) :
  (d < 16)%N -> Uuid.is_lower_hex (Uuid.hexdigit d) = true.
Proof.
  intros Hd.
  assert (H : In d (map N.of_nat (seq 0 16))).
  { apply in_map_iff. exists (N.to_nat d). split; [apply N2Nat.id|].
    apply in_seq. lia. }
  simpl in H.
  repeat (destruct H as [<-|H]; [reflexivity|]). contradiction.
Qed.

Lemma hex_lower_hex (int : N) :
  Forall (fun c => Uuid.is_lower_hex c = true) (Uuid.hex int).
Proof.
  unfold Uuid.hex. apply Forall_map, Forall_forall. intros i _.
  apply hexdigit_lower_hex. unfold Uuid.nibble.
  apply N.mod_upper_bound. discriminate.
Qed.

Lemma hex_length (int : N) : List.length (Uuid.hex int) = 32%nat.
Proof. unfold Uuid.hex. now rewrite length_map, length_rev, length_seq. Qed.

Lemma hexvalue_hexdigit (d : N) : (d < 16)%N -> Uuid.hexvalue (Uuid.hexdigit d) = d.
Proof.
  intros Hd.
  assert (H : In d (map N.of_nat (seq 0 16))).
  { apply in_map_iff. exists (N.to_nat d). split; [apply N2Nat.id|].
    apply in_seq. lia. }
  simpl in H.
  repeat (destruct H as [<-|H]; [reflexivity|]). contradiction.
Qed.

Lemma of_hex_digits (n : N) (k : nat) (acc : N) :
  fold_left (fun a c => (16 * a + Uuid.hexvalue c)%N)
    (map (fun i => Uuid.hexdigit (Uuid.nibble n i)) (rev (seq 0 k))) acc
  = (acc * 16 ^ N.of_nat k + n mod 16 ^ N.of_nat k)%N.
Proof.
  revert acc. induction k as [|k IH]; intros acc.
  - simpl. rewrite N.mod_1_r. lia.
  - rewrite seq_S, rev_app_distr. cbn [rev app map fold_left Nat.add].
    rewrite IH, hexvalue_hexdigit
      by (unfold Uuid.nibble; apply N.mod_upper_bound; discriminate).
    unfold Uuid.nibble.
    rewrite Nat2N.inj_succ, N.pow_succ_r', N.shiftr_div_pow2.
    replace (2 ^ (4 * N.of_nat k))%N with (16 ^ N.of_nat k)%N
      by (change 16%N with (2 ^ 4)%N; now rewrite <- N.pow_mul_r).
    set (b := (16 ^ N.of_nat k)%N).
    assert (Hb : b <> 0%N) by (apply N.pow_nonzero; discriminate).
    rewrite (N.mul_comm 16 b), (N.Div0.mod_mul_r n b 16). lia.
Qed.

(** [hex] is the numeral of its argument: reading it back gives the
    integer, for every integer of 128 bits. *)
Lemma of_hex_hex (int : N) : (int < 2 ^ 128)%N -> Uuid.of_hex (Uuid.hex int) = int.
Proof.
  intros Hint. unfold Uuid.of_hex, Uuid.hex.
  rewrite of_hex_digits. change (16 ^ N.of_nat 32)%N with (2 ^ 128)%N.
  rewrite N.mod_small by exact Hint. reflexivity.
Qed.

Lemma list_ascii_of_string_of_list (l : list ascii) :
  list_ascii_of_string (string_of_list_ascii l) = l.
Proof. induction l as [|c l IH]; simpl; [reflexivity | now rewrite IH]. Qed.

Lemma string_of_list_length (l : list ascii) :
  String.length (string_of_list_ascii l) = List.length l.
Proof. induction l as [|c l IH]; simpl; [reflexivity | now rewrite IH]. Qed.

Lemma hex_prefix_format (n : nat) (int : N) :
  (n <= 32)%nat ->
  String.length (Uuid.hex_prefix n int) = n /\
  Forall (fun c => Uuid.is_lower_hex c = true)
    (list_ascii_of_string (Uuid.hex_prefix n int)).
Proof.
  intros Hn. unfold Uuid.hex_prefix. split.
  - rewrite string_of_list_length, length_firstn, hex_length. lia.
  - rewrite list_ascii_of_string_of_list.
    apply Forall_forall. intros c Hc.
    apply (proj1 (Forall_forall _ _) (hex_lower_hex int)).
    rewrite <- (firstn_skipn n (Uuid.hex int)). apply in_or_app. now left.
Qed.

(** ** Creation and lookup *)

(** What [create_paste] does, step by step. *)
Lemma create_paste_eq (env : Env) (form : Form) (w : World) :
  create_paste env form w =
  match form_content form with
  | None => (inl (RequestValidationError "content"), w)
  | Some c =>
      if String.eqb c "" && empty_required_is_missing env
      then (inl (RequestValidationError "content"), w)
      else
        let w1 := elapse env (mkWorld (table w) (clock w) (S (draws w))) in
        let i := Uuid.paste_id_of (urandom env (draws w)) in
        let row :=
          mkPaste i c
            (Form_default "Untitled Paste" (form_title form))
            (Form_default "none" (form_syntax form))
            (Form_default "never" (form_expires form))
            (Form_default "public" (form_visibility form))
            (clock w1) in
        if existsb (has_id i) (table w)
        then (inl (IntegrityError i), elapse env w1)
        else if pg_accepts row
        then (inr (Url ("/paste/" ++ i)),
              elapse env (mkWorld (table w ++ [row]) (clock w1) (draws w1)))
        else (inl DataError, elapse env w1)
  end.
Proof.
  unfold create_paste, bind, Form_required.
  destruct (form_content form) as [c|]; [|reflexivity].
  destruct (String.eqb c "" && empty_required_is_missing env); [reflexivity|].
  cbn -[existsb Uuid.hex_prefix Uuid.uuid4_of append pg_accepts].
  unfold execute_insert, Uuid.paste_id_of.
  cbn -[existsb Uuid.hex_prefix Uuid.uuid4_of append pg_accepts].
  destruct (existsb _ (table w)); [reflexivity|].
  destruct (pg_accepts _); reflexivity.
Qed.

Lemma view_paste_eq (env : Env) (i : string) (w : World) :
  view_paste env i w =
  match find (has_id i) (table w) with
  | None => (inl (HTTPException 404 "Paste not found"), elapse env w)
  | Some row =>
      (inr (PastePage
              (mkPasteContext (id row) (title row) (content row) (syntax row)
                 (expires row) (visibility row) (created_at row))),
       elapse env w)
  end.
Proof.
  unfold view_paste, bind, fetch_one_by_id.
  destruct (find (has_id i) (table w)); reflexivity.
Qed.

Lemma has_id_refl (p : Paste) : has_id (id p) p = true.
Proof. apply String.eqb_refl. Qed.

Lemma find_fresh (i : string) (t : list Paste) :
  existsb (has_id i) t = false -> find (has_id i) t = None.
Proof.
  induction t as [|p t IH]; simpl; [reflexivity|].
  destruct (has_id i p); simpl; [discriminate | exact IH].
Qed.

Lemma find_app_kept (i : string) (t added : list Paste) (p : Paste) :
  find (has_id i) t = Some p -> find (has_id i) (t ++ added) = Some p.
Proof.
  induction t as [|q t IH]; simpl; [discriminate|].
  destruct (has_id i q); [trivial | exact IH].
Qed.

Lemma find_app_fresh (i : string) (t added : list Paste) :
  existsb (has_id i) t = false ->
  find (has_id i) (t ++ added) = find (has_id i) added.
Proof.
  induction t as [|q t IH]; simpl; [reflexivity|].
  destruct (has_id i q); simpl; [discriminate | exact IH].
Qed.

Lemma existsb_has_id_In (i : string) (t : list Paste) :
  existsb (has_id i) t = true <-> In i (map id t).
Proof.
  rewrite existsb_exists, in_map_iff. unfold has_id.
  split; intros [p [H1 H2]]; exists p.
  - apply String.eqb_eq in H2. tauto.
  - split; [tauto|]. apply String.eqb_eq. tauto.
Qed.

Lemma elapse_clock (env : Env) (w : World) : clock w <= clock (elapse env w).
Proof. unfold elapse; simpl. lia. Qed.

(** Content is bound when the field is sent and, if it is sent empty, the
    release binds the empty string. *)
Lemma content_is_bound (env : Env) (c : string) :
  (c = "" -> empty_required_is_missing env = false) ->
  String.eqb c "" && empty_required_is_missing env = false.
Proof.
  intros H. destruct (String.eqb_spec c "") as [E|E]; [|reflexivity].
  now rewrite (H E).
Qed.

(** A creation either fails and leaves the table alone, or appends one row
    under an id that was free and answers with its url. *)
Lemma create_paste_cases (env : Env) (form : Form) (w : World) :
  (exists e w', create_paste env form w = (inl e, w') /\ table w' = table w) \/
  (exists row w',
     create_paste env form w = (inr (Url ("/paste/" ++ id row)), w') /\
     table w' = (table w ++ [row])%list /\
     existsb (has_id (id row)) (table w) = false /\
     id row = Uuid.paste_id_of (urandom env (draws w)) /\
     form_content form = Some (content row) /\
     title row = Form_default "Untitled Paste" (form_title form) /\
     syntax row = Form_default "none" (form_syntax form) /\
     expires row = Form_default "never" (form_expires form) /\
     visibility row = Form_default "public" (form_visibility form) /\
     clock w <= created_at row <= clock w' /\
     pg_accepts row = true).
Proof.
  rewrite create_paste_eq.
  destruct (form_content form) as [c|]; [|left; eauto].
  destruct (String.eqb c "" && empty_required_is_missing env); [left; eauto|].
  cbv zeta.
  destruct (existsb _ (table w)) eqn:E; [left; eauto|].
  destruct (pg_accepts _) eqn:Hpg; [|left; eauto].
  right. eexists (mkPaste _ _ _ _ _ _ _), _.
  split; [reflexivity|]. cbn [table id content title syntax expires visibility created_at].
  repeat (split; [reflexivity || exact E|]).
  split; [|exact Hpg]. unfold elapse; simpl. lia.
Qed.

(** What [view_paste] shows of a row that was appended under a free id. *)
Lemma view_appended (env : Env) (w w' : World) (row : Paste) :
  table w' = (table w ++ [row])%list ->
  existsb (has_id (id row)) (table w) = false ->
  view_paste env (id row) w' = (inr (PastePage (context_of row)), elapse env w').
Proof.
  intros Ht Hf. rewrite view_paste_eq, Ht, find_app_fresh by exact Hf.
  cbn [find]. now rewrite has_id_refl.
Qed.

Lemma lower_hex_not_nul (c : ascii) :
  Uuid.is_lower_hex c = true -> Ascii.eqb c zero = false.
Proof.
  intros H. destruct (Ascii.eqb_spec c zero) as [->|]; [discriminate H | reflexivity].
Qed.

Lemma paste_id_no_nul (draw : N) : has_nul (Uuid.paste_id_of draw) = false.
Proof.
  unfold has_nul.
  destruct (existsb _ (list_ascii_of_string (Uuid.paste_id_of draw))) eqn:E;
    [|reflexivity].
  apply existsb_exists in E. destruct E as (c & Hin & Hc).
  destruct (hex_prefix_format 8 (Uuid.uuid4_of draw)) as [_ Hall]; [lia|].
  rewrite Forall_forall in Hall. apply Hall, lower_hex_not_nul in Hin. congruence.
Qed.

Lemma Form_default_no_nul (default : string) (v : option string) :
  has_nul default = false ->
  match v with Some s => negb (has_nul s) | None => true end = true ->
  has_nul (Form_default default v) = false.
Proof.
  intros Hd Hv. unfold Form_default.
  destruct v as [s|]; [|exact Hd].
  destruct (String.eqb s ""); [exact Hd|].
  now apply negb_true_iff in Hv.
Qed.

(** The row made from a request whose fields hold no U+0000 holds none. *)
Lemma pg_accepts_created (form : Form) (c : string) (draw : N) (now : Z) :
  form_content form = Some c ->
  form_storable form = true ->
  pg_accepts
    (mkPaste (Uuid.paste_id_of draw) c
       (Form_default "Untitled Paste" (form_title form))
       (Form_default "none" (form_syntax form))
       (Form_default "never" (form_expires form))
       (Form_default "public" (form_visibility form)) now) = true.
Proof.
  intros Hc Hst.
  unfold form_storable in Hst. cbn [forallb] in Hst. rewrite Hc in Hst.
  repeat (apply andb_true_iff in Hst; destruct Hst as [? Hst]).
  unfold pg_accepts. cbn [id content title syntax expires visibility].
  rewrite paste_id_no_nul, !Form_default_no_nul by (assumption || reflexivity).
  match goal with
  | H : negb (has_nul c) = true |- _ => apply negb_true_iff in H; now rewrite H
  end.
Qed.

(** Content bound, the drawn id free and no U+0000 in what is sent: the
    creation succeeds. *)
Lemma create_paste_succeeds (env : Env) (form : Form) (c : string) (w : World) :
  form_content form = Some c ->
  (c = "" -> empty_required_is_missing env = false) ->
  existsb (has_id (Uuid.paste_id_of (urandom env (draws w)))) (table w) = false ->
  form_storable form = true ->
  exists b w', create_paste env form w = (inr b, w').
Proof.
  intros Hc Hbound Hfresh Hst.
  rewrite create_paste_eq, Hc, (content_is_bound env c Hbound). cbv zeta.
  rewrite Hfresh, (pg_accepts_created form c _ _ Hc Hst). eauto.
Qed.

(** A content with U+0000 under a free id: the insert is refused, the
    request ends with status 500 and nothing is stored. *)
Example nul_content_is_refused :
  create_paste quiet_env nul_form (initial 0) = (inl DataError, mkWorld [] 2 1) /\
  status_of (fst (create_paste quiet_env nul_form (initial 0))) = 500%nat.
Proof. split; reflexivity. Qed.

(** C1 as stated fails: a title that the request gives as the empty string
    is not what the page shows. *)
Lemma supplied_empty_is_not_shown :
  ~ (forall (env : Env) (form : Form) (c : string) (w : World) (i : string)
            (w1 : World) (ctx : PasteContext) (w2 : World),
       form_content form = Some c ->
       create_paste env form w = (inr (Url ("/paste/" ++ i)), w1) ->
       view_paste env i w1 = (inr (PastePage ctx), w2) ->
       ctx_title ctx =
         match form_title form with Some s => s | None => "Untitled Paste" end).
Proof.
  intros H.
  pose (row := mkPaste "00000000" "x" "Untitled Paste" "none" "never" "public" 1).
  specialize (H quiet_env empty_title_form "x" (initial 0) "00000000"
                (mkWorld [row] 2 1) (context_of row) (mkWorld [row] 3 1) eq_refl).
  assert (Hrun : create_paste quiet_env empty_title_form (initial 0)
                 = (inr (Url ("/paste/" ++ "00000000")), mkWorld [row] 2 1))
    by (vm_compute; reflexivity).
  assert (Hview : view_paste quiet_env "00000000" (mkWorld [row] 2 1)
                  = (inr (PastePage (context_of row)), mkWorld [row] 3 1))
    by (vm_compute; reflexivity).
  specialize (H Hrun Hview). discriminate H.
Qed.

(** C1, amended: for every creation request whose content is bound,
    [create_paste] followed by [view_paste] on the id of the returned url
    shows a record whose content is the one supplied, whose title, syntax,
    expires and visibility are the ones supplied when they are not empty,
    and "Untitled Paste", "none", "never" and "public" for the fields left
    out or sent empty, and whose [created_at] lies between the clock at the
    start and at the end of the creation.  A creation whose drawn id is free
    and whose fields hold no U+0000 does return. *)
Theorem create_then_view (env : Env) (form : Form) (c : string) (w : World) :
  form_content form = Some c ->
  ((c = "" -> empty_required_is_missing env = false) ->
   existsb (has_id (Uuid.paste_id_of (urandom env (draws w)))) (table w) = false ->
   form_storable form = true ->
   exists b w1, create_paste env form w = (inr b, w1)) /\
  (forall b w1,
     create_paste env form w = (inr b, w1) ->
     exists i ctx w2,
       b = Url ("/paste/" ++ i) /\
       view_paste env i w1 = (inr (PastePage ctx), w2) /\
       ctx_paste_id ctx = i /\
       ctx_content ctx = c /\
       ctx_title ctx =
         match form_title form with
         | None => "Untitled Paste"
         | Some s => if String.eqb s "" then "Untitled Paste" else s
         end /\
       ctx_syntax ctx =
         match form_syntax form with
         | None => "none"
         | Some s => if String.eqb s "" then "none" else s
         end /\
       ctx_expires ctx =
         match form_expires form with
         | None => "never"
         | Some s => if String.eqb s "" then "never" else s
         end /\
       ctx_visibility ctx =
         match form_visibility form with
         | None => "public"
         | Some s => if String.eqb s "" then "public" else s
         end /\
       clock w <= ctx_created_at ctx <= clock w1).
Proof.
  intros Hc. split.
  - intros Hbound Hfresh Hst. now apply (create_paste_succeeds env form c w).
  - intros b w1 Hrun.
    destruct (create_paste_cases env form w)
      as [(e & w' & Hrun' & _)
         | (row & w' & Hrun' & Ht & Hf & _ & Hco & Hti & Hsy & Hex & Hvi & Hclk & _)];
      rewrite Hrun in Hrun'; [discriminate|].
    injection Hrun' as -> ->.
    rewrite Hc in Hco. injection Hco as ->.
    exists (id row), (context_of row), (elapse env w').
    split; [reflexivity|]. split; [now apply (view_appended env w)|].
    cbn [context_of ctx_paste_id ctx_content ctx_title ctx_syntax ctx_expires
           ctx_visibility ctx_created_at].
    rewrite Hti, Hsy, Hex, Hvi. unfold Form_default. tauto.
Qed.

(** Two runs of the scenario: "hello world" with every other field left
    out, and a request that gives a title, sends its syntax empty and leaves
    its expires out. *)
Lemma create_then_view_witness :
  (exists w1 ctx w2,
     create_paste quiet_env hello_form (initial 0) = (inr (Url "/paste/00000000"), w1) /\
     view_paste quiet_env "00000000" w1 = (inr (PastePage ctx), w2) /\
     ctx_content ctx = "hello world" /\ ctx_title ctx = "Untitled Paste" /\
     ctx_syntax ctx = "none" /\ ctx_expires ctx = "never" /\
     ctx_visibility ctx = "public" /\ 0 <= ctx_created_at ctx <= clock w1) /\
  (exists w1 ctx w2,
     create_paste quiet_env note_form (initial 0) = (inr (Url "/paste/00000000"), w1) /\
     view_paste quiet_env "00000000" w1 = (inr (PastePage ctx), w2) /\
     ctx_content ctx = "€€" /\ ctx_title ctx = "Euro" /\
     ctx_syntax ctx = "none" /\ ctx_expires ctx = "never" /\
     ctx_visibility ctx = "private" /\ 0 <= ctx_created_at ctx <= clock w1).
Proof.
  split.
  - destruct (create_then_view quiet_env hello_form "hello world" (initial 0) eq_refl)
      as [Hex Hall].
    destruct Hex as (b & w1 & Hrun);
      [discriminate | reflexivity | reflexivity |].
    destruct (Hall _ _ Hrun) as (i & ctx & w2 & Hb & Hv & Hi & Hrest).
    assert (Hb' : b = Url "/paste/00000000")
      by (apply (f_equal fst) in Hrun; vm_compute in Hrun; now injection Hrun as <-).
    rewrite Hb' in Hb. injection Hb as Hb. subst i b.
    exists w1, ctx, w2. split; [exact Hrun|]. split; [exact Hv|]. exact Hrest.
  - destruct (create_then_view quiet_env note_form "€€" (initial 0) eq_refl)
      as [Hex Hall].
    destruct Hex as (b & w1 & Hrun);
      [discriminate | reflexivity | reflexivity |].
    destruct (Hall _ _ Hrun) as (i & ctx & w2 & Hb & Hv & Hi & Hrest).
    assert (Hb' : b = Url "/paste/00000000")
      by (apply (f_equal fst) in Hrun; vm_compute in Hrun; now injection Hrun as <-).
    rewrite Hb' in Hb. injection Hb as Hb. subst i b.
    exists w1, ctx, w2. split; [exact Hrun|]. split; [exact Hv|]. exact Hrest.
Defined.







(** C8: every generated id is exactly 8 characters long, each of them one of
    0-9 and a-f, and every url answered by a creation is "/paste/" followed
    by such an id. *)
Theorem paste_id_is_8_hex (env : Env) :
  (forall draw,
     String.length (Uuid.paste_id_of draw) = 8%nat /\
     Forall (fun ch => Uuid.is_lower_hex ch = true)
       (list_ascii_of_string (Uuid.paste_id_of draw))) /\
  (forall form w b w',
     create_paste env form w = (inr b, w') ->
     exists i,
       b = Url ("/paste/" ++ i) /\
       i = Uuid.paste_id_of (urandom env (draws w)) /\
       String.length i = 8%nat /\
       Forall (fun ch => Uuid.is_lower_hex ch = true) (list_ascii_of_string i)).
Proof.
  assert (Hfmt : forall draw,
             String.length (Uuid.paste_id_of draw) = 8%nat /\
             Forall (fun ch => Uuid.is_lower_hex ch = true)
               (list_ascii_of_string (Uuid.paste_id_of draw))).
  { intros draw. apply hex_prefix_format. lia. }
  split; [exact Hfmt|].
  intros form w b w' Hrun.
  destruct (create_paste_cases env form w)
    as [(e & w1 & Hrun' & _) | (row & w1 & Hrun' & _ & _ & Hi & _)];
    rewrite Hrun in Hrun'; [discriminate|].
  injection Hrun' as -> _.
  exists (id row). rewrite Hi. split; [reflexivity|]. split; [reflexivity|].
  apply Hfmt.
Qed.

Lemma paste_id_is_8_hex_witness :
  exists i,
    Url "/paste/00000000" = Url ("/paste/" ++ i) /\
    i = Uuid.paste_id_of (urandom quiet_env (draws (initial 0))) /\
    String.length i = 8%nat /\
    Forall (fun ch => Uuid.is_lower_hex ch = true) (list_ascii_of_string i).
Proof.
  apply (proj2 (paste_id_is_8_hex quiet_env) hello_form (initial 0)
           (Url "/paste/00000000")
           (mkWorld [mkPaste "00000000" "hello world" "Untitled Paste"
                       "none" "never" "public" 1] 2 1)).
  vm_compute. reflexivity.
Defined.

(** C10 as stated fails: a title that the request gives as the empty
    string is stored as "Untitled Paste", not as the empty string. *)
Lemma empty_field_is_defaulted :
  ~ (forall (env : Env) (form : Form) (w : World) (b : Body) (w' : World)
            (row : Paste),
       create_paste env form w = (inr b, w') ->
       table w' = (table w ++ [row])%list ->
       form_title form = Some "" ->
       title row = "").
Proof.
  intros H.
  pose (row := mkPaste "00000000" "x" "Untitled Paste" "none" "never" "public" 1).
  assert (Hrun : create_paste quiet_env empty_title_form (initial 0)
                 = (inr (Url "/paste/00000000"), mkWorld [row] 2 1))
    by (vm_compute; reflexivity).
  specialize (H quiet_env empty_title_form (initial 0) _ _ row Hrun eq_refl eq_refl).
  discriminate H.
Qed.

(** C10, amended: the defaults stand in for the optional fields that are
    absent from the request and for those that are sent empty.  A creation
    that succeeds stores "Untitled Paste", "none", "never" and "public" for
    a title, syntax, expires and visibility that the request leaves out or
    gives as the empty string, stores every other value as given, and
    [view_paste] shows the record so. *)
Theorem empty_fields_get_defaults
  (env : Env) (form : Form) (w : World) (b : Body) (w' : World) :
  create_paste env form w = (inr b, w') ->
  exists row,
    table w' = (table w ++ [row])%list /\
    b = Url ("/paste/" ++ id row) /\
    view_paste env (id row) w' = (inr (PastePage (context_of row)), elapse env w') /\
    (form_title form = None \/ form_title form = Some "" ->
     title row = "Untitled Paste") /\
    (form_syntax form = None \/ form_syntax form = Some "" -> syntax row = "none") /\
    (form_expires form = None \/ form_expires form = Some "" ->
     expires row = "never") /\
    (form_visibility form = None \/ form_visibility form = Some "" ->
     visibility row = "public") /\
    (forall s, form_title form = Some s -> s <> "" -> title row = s) /\
    (forall s, form_syntax form = Some s -> s <> "" -> syntax row = s) /\
    (forall s, form_expires form = Some s -> s <> "" -> expires row = s) /\
    (forall s, form_visibility form = Some s -> s <> "" -> visibility row = s).
Proof.
  intros Hrun.
  destruct (create_paste_cases env form w)
    as [(e & w1 & Hrun' & _)
       | (row & w1 & Hrun' & Ht & Hf & _ & _ & Hti & Hsy & Hex & Hvi & _)];
    rewrite Hrun in Hrun'; [discriminate|].
  injection Hrun' as -> ->.
  exists row. split; [exact Ht|]. split; [reflexivity|].
  split; [now apply (view_appended env w)|].
  rewrite Hti, Hsy, Hex, Hvi. unfold Form_default.
  repeat split;
    try (intros [-> | ->]; reflexivity);
    intros s -> Hs; apply String.eqb_neq in Hs; now rewrite Hs.
Qed.

Lemma empty_fields_get_defaults_witness :
  exists row w',
    create_paste quiet_env note_form (initial 0)
      = (inr (Url ("/paste/" ++ id row)), w') /\
    table w' = [row] /\
    title row = "Euro" /\ syntax row = "none" /\
    expires row = "never" /\ visibility row = "private".
Proof.
  pose (row := mkPaste "00000000" "€€" "Euro" "none" "never" "private" 1).
  assert (Hrun : create_paste quiet_env note_form (initial 0)
                 = (inr (Url "/paste/00000000"), mkWorld [row] 2 1))
    by (vm_compute; reflexivity).
  destruct (empty_fields_get_defaults quiet_env note_form (initial 0) _ _ Hrun)
    as (r & Ht & Hb & _ & _ & Hsy & Hex & _ & Hti & _ & _ & Hvi).
  exists r, (mkWorld [row] 2 1).
  split; [now rewrite <- Hb|]. split; [exact Ht|].
  split; [apply (Hti "Euro"); [reflexivity | discriminate]|].
  split; [apply Hsy; now right|].
  split; [apply Hex; now left|].
  apply (Hvi "private"); [reflexivity | discriminate].
Defined.

(** ** Runs of requests *)

(** A handler leaves the table as it was, or (a creation that succeeds)
    appends one row under a free id and answers with that row's url. *)
Lemma handle_cases (env : Env) (r : Request) (w : World) :
  exists resp w',
    handle env r w = (resp, w') /\
    (table w' = table w \/
     exists row,
       table w' = (table w ++ [row])%list /\
       resp = inr (Url ("/paste/" ++ id row)) /\
       existsb (has_id (id row)) (table w) = false).
Proof.
  destruct r as [|form| |paste_id| |]; cbn [handle].
  - eexists _, _. split; [reflexivity|]. now left.
  - destruct (create_paste_cases env form w)
      as [(e & w' & Hrun & Ht) | (row & w' & Hrun & Ht & Hf & _)];
      rewrite Hrun; eexists _, _; (split; [reflexivity|]); [now left|].
    right. exists row. tauto.
  - eexists _, _. split; [reflexivity|]. now left.
  - rewrite view_paste_eq.
    destruct (find (has_id paste_id) (table w));
      eexists _, _; (split; [reflexivity|]); now left.
  - eexists _, _. split; [reflexivity|]. now left.
  - eexists _, _. split; [reflexivity|]. now left.
Qed.

Lemma NoDup_snoc (l : list string) (x : string) :
  NoDup l -> ~ In x l -> NoDup (l ++ [x]).
Proof.
  intros Hl Hx.
  apply (Permutation_NoDup (Permutation_cons_append l x)).
  now constructor.
Qed.

(** Over a run the table only grows at its end; every row added was issued
    by one of the responses, under an id that no earlier row had. *)
Lemma serve_rows (env : Env) (rs : list Request) :
  forall w resps w',
    serve env rs w = (resps, w') ->
    exists added,
      table w' = (table w ++ added)%list /\
      (forall q, In q added -> issued (id q) resps) /\
      (forall q, In q added -> ~ In (id q) (map id (table w))) /\
      (NoDup (map id (table w)) -> NoDup (map id (table w'))).
Proof.
  induction rs as [|r rs IH]; intros w resps w' Hrun; cbn [serve] in Hrun.
  - injection Hrun as <- <-. exists []. rewrite app_nil_r.
    repeat split; [contradiction | contradiction | trivial].
  - destruct (handle_cases env r w) as (resp & w1 & Hr & Hcase).
    rewrite Hr in Hrun.
    destruct (serve env rs w1) as [resps' w2] eqn:Hrest.
    injection Hrun as <- <-.
    destruct (IH _ _ _ Hrest) as (added & Ht & Hiss & Hnew & Hnd).
    destruct Hcase as [Hsame | (row & Hrow & Hresp & Hfresh)].
    + exists added. rewrite Hsame in Ht, Hnew, Hnd.
      split; [exact Ht|]. split; [|split; [exact Hnew | exact Hnd]].
      intros q Hq. right. now apply Hiss.
    + assert (Hnot : ~ In (id row) (map id (table w))).
      { intros Hin. apply existsb_has_id_In in Hin. congruence. }
      exists (row :: added). rewrite Hrow in Ht, Hnew, Hnd.
      split; [now rewrite Ht, <- app_assoc|]. split; [|split].
      * intros q [<-|Hq]; [left; now symmetry | right; now apply Hiss].
      * intros q [<-|Hq]; [exact Hnot|].
        intros Hin. apply (Hnew q Hq). rewrite map_app. apply in_or_app. now left.
      * intros Hw. apply Hnd. rewrite map_app. now apply NoDup_snoc.
Qed.




(** C7: no request mutates or deletes a stored record or gives its id to
    another one.  Over every run of requests the rows present before are
    still there, unchanged and in place, the rows added carry ids that no
    earlier row had (so ids stay unique), and whatever [view_paste] showed
    for an id before the run it shows after it. *)
Theorem records_are_immutable
  (env : Env) (rs : list Request) (w : World) (resps : list (Failure + Body))
  (w' : World) :
  serve env rs w = (resps, w') ->
  exists added,
    table w' = (table w ++ added)%list /\
    (forall p, In p (table w) -> In p (table w')) /\
    (forall p q, In p (table w) -> In q added -> id q <> id p) /\
    (NoDup (map id (table w)) -> NoDup (map id (table w'))) /\
    (forall i ctx,
       fst (view_paste env i w) = inr (PastePage ctx) ->
       fst (view_paste env i w') = inr (PastePage ctx)).
Proof.
  intros Hrun.
  destruct (serve_rows env rs _ _ _ Hrun) as (added & Ht & _ & Hnew & Hnd).
  exists added. split; [exact Ht|]. split; [|split; [|split; [exact Hnd|]]].
  - intros p Hp. rewrite Ht. apply in_or_app. now left.
  - intros p q Hp Hq Heq. apply (Hnew q Hq). rewrite Heq. now apply in_map.
  - intros i ctx. rewrite !view_paste_eq.
    destruct (find (has_id i) (table w)) as [p|] eqn:Hfind; [|discriminate].
    rewrite Ht, (find_app_kept _ _ added _ Hfind). trivial.
Qed.

Lemma records_are_immutable_witness :
  exists added,
    [zero_row; note_row] = ([zero_row] ++ added)%list /\
    (forall p, In p [zero_row] -> In p [zero_row; note_row]) /\
    (forall p q, In p [zero_row] -> In q added -> id q <> id p) /\
    (NoDup (map id [zero_row]) -> NoDup (map id [zero_row; note_row])) /\
    (forall i ctx,
       fst (view_paste fresh_later_env i (mkWorld [zero_row] 10 0))
         = inr (PastePage ctx) ->
       fst (view_paste fresh_later_env i (mkWorld [zero_row; note_row] 16 2))
         = inr (PastePage ctx)).
Proof.
  apply (records_are_immutable fresh_later_env mixed_run (mkWorld [zero_row] 10 0)
           [inl (IntegrityError "00000000");
            inr (Url "/paste/80000000");
            inr (PastePage
                   (mkPasteContext "00000000" "Untitled Paste" "first"
                      "none" "never" "public" 5));
            inr (Entries [mkEntry "80000000" "Euro"; mkEntry "00000000" "Untitled Paste"])]
           (mkWorld [zero_row; note_row] 16 2)).
  vm_compute. reflexivity.
Defined.

(** ** Ordered listings *)

Section OrderByFacts.

Variable key : Paste -> Z.

Lemma insert_desc_perm (x : Paste) (l : list Paste) :
  Permutation (x :: l) (insert_desc key x l).
Proof.
  induction l as [|y l IH]; simpl; [reflexivity|].
  destruct (key y <=? key x); [reflexivity|].
  rewrite perm_swap. now constructor.
Qed.

Lemma order_by_desc_perm (rows : list Paste) :
  Permutation rows (order_by_desc key rows).
Proof.
  induction rows as [|x rows IH]; simpl; [reflexivity|].
  rewrite <- insert_desc_perm. now constructor.
Qed.

Lemma insert_desc_sorted (x : Paste) (l : list Paste) :
  sorted_desc key l -> sorted_desc key (insert_desc key x l).
Proof.
  unfold sorted_desc.
  induction l as [|y l IH]; intros Hs; simpl.
  - repeat constructor.
  - apply StronglySorted_inv in Hs. destruct Hs as [Hl Hy].
    destruct (key y <=? key x) eqn:E.
    + apply Z.leb_le in E. constructor.
      * now constructor.
      * constructor; [exact E|].
        eapply Forall_impl; [|exact Hy]. cbv beta. intros; lia.
    + apply Z.leb_gt in E. constructor; [now apply IH|].
      apply (Permutation_Forall (insert_desc_perm x l)).
      constructor; [lia | exact Hy].
Qed.

Lemma order_by_desc_sorted (rows : list Paste) :
  sorted_desc key (order_by_desc key rows).
Proof.
  induction rows as [|x rows IH]; simpl.
  - constructor.
  - now apply insert_desc_sorted.
Qed.

(** The arrangement the model computes is one of the admissible ones. *)
Lemma order_by_desc_admissible (limit : nat) (rows : list Paste) :
  order_by_limit key limit rows (firstn limit (order_by_desc key rows)).
Proof.
  exists (order_by_desc key rows).
  split; [apply order_by_desc_perm|]. split; [apply order_by_desc_sorted | reflexivity].
Qed.

Lemma sorted_desc_firstn (n : nat) (l : list Paste) :
  sorted_desc key l -> sorted_desc key (firstn n l).
Proof.
  unfold sorted_desc. revert n.
  induction l as [|x l IH]; intros [|n] Hs; simpl; try constructor.
  - apply IH. now apply StronglySorted_inv in Hs.
  - apply StronglySorted_inv in Hs. destruct Hs as [_ Hx].
    apply Forall_forall. intros y Hy.
    apply (proj1 (Forall_forall _ _) Hx).
    rewrite <- (firstn_skipn n l). apply in_or_app. now left.
Qed.

(** A row whose key is strictly above that of every other row heads every
    descending arrangement. *)
Lemma strict_max_is_head (l1 l2 l : list Paste) (p : Paste) :
  Permutation (l1 ++ p :: l2) l ->
  sorted_desc key l ->
  Forall (fun q => key q < key p) (l1 ++ l2) ->
  exists rest, l = p :: rest.
Proof.
  intros Hperm Hs Hmax.
  destruct l as [|h rest].
  - apply Permutation_sym, Permutation_nil in Hperm.
    destruct l1; discriminate.
  - assert (Hh : In h (l1 ++ p :: l2)).
    { apply (Permutation_in _ (Permutation_sym Hperm)). now left. }
    assert (Hp : In p (h :: rest)).
    { apply (Permutation_in _ Hperm). apply in_or_app. right. now left. }
    assert (Hcase : h = p \/ key h < key p).
    { apply in_app_or in Hh. rewrite Forall_forall in Hmax.
      destruct Hh as [Hh|[Hh|Hh]]; [right|now left|right];
        apply Hmax, in_or_app; tauto. }
    destruct Hcase as [->|Hlt]; [now exists rest|].
    exfalso. destruct Hp as [->|Hp]; [lia|].
    apply StronglySorted_inv in Hs. destruct Hs as [_ Hall].
    rewrite Forall_forall in Hall. specialize (Hall p Hp). lia.
Qed.

(** What every admissible answer of a listing looks like. *)
Lemma order_by_limit_facts (limit : nat) (rows out : list Paste) :
  order_by_limit key limit rows out ->
  (List.length out <= limit)%nat /\
  List.length out = Nat.min limit (List.length rows) /\
  incl out rows /\
  sorted_desc key out /\
  (forall l1 p l2,
     rows = (l1 ++ p :: l2)%list ->
     Forall (fun q => key q < key p) (l1 ++ l2) ->
     (0 < limit)%nat ->
     exists rest, out = p :: rest).
Proof.
  intros (l & Hperm & Hs & ->).
  split; [rewrite length_firstn; lia|].
  split; [rewrite length_firstn, (Permutation_length Hperm); reflexivity|].
  split; [|split].
  - intros x Hx. apply (Permutation_in _ (Permutation_sym Hperm)).
    rewrite <- (firstn_skipn limit l). apply in_or_app. now left.
  - now apply sorted_desc_firstn.
  - intros l1 p l2 Hrows Hmax Hlim. rewrite Hrows in Hperm.
    destruct (strict_max_is_head _ _ _ _ Hperm Hs Hmax) as [rest ->].
    destruct limit as [|n]; [lia|]. simpl. eauto.
Qed.

End OrderByFacts.

(** ** Listings and the visibility column *)

Lemma same_but_visibility_sym (p q : Paste) :
  same_but_visibility p q -> same_but_visibility q p.
Proof. unfold same_but_visibility. intuition congruence. Qed.

Lemma differ_only_in_visibility_sym (t1 t2 : list Paste) :
  differ_only_in_visibility t1 t2 -> differ_only_in_visibility t2 t1.
Proof.
  unfold differ_only_in_visibility.
  induction 1; constructor; auto using same_but_visibility_sym.
Qed.

Lemma same_id_title (l l' : list Paste) :
  Forall2 same_but_visibility l l' -> map id_title l = map id_title l'.
Proof.
  induction 1 as [|p q l l' (Hid & _ & Hti & _) _ IH]; simpl; [reflexivity|].
  unfold id_title at 1 3. now rewrite Hid, Hti, IH.
Qed.

Lemma same_firstn (n : nat) (l l' : list Paste) :
  Forall2 same_but_visibility l l' ->
  Forall2 same_but_visibility (firstn n l) (firstn n l').
Proof.
  intros H. revert n.
  induction H; intros [|n]; simpl; constructor; auto.
Qed.

Section KeyIgnoresVisibility.

Variable key : Paste -> Z.
Hypothesis key_same : forall p q, same_but_visibility p q -> key p = key q.

Lemma same_insert_desc (p q : Paste) (l l' : list Paste) :
  same_but_visibility p q ->
  Forall2 same_but_visibility l l' ->
  Forall2 same_but_visibility (insert_desc key p l) (insert_desc key q l').
Proof.
  intros Hpq H.
  induction H as [|a b l l' Hab H IH]; simpl.
  - constructor; [exact Hpq | constructor].
  - rewrite (key_same _ _ Hpq), (key_same _ _ Hab).
    destruct (key b <=? key q).
    + constructor; [exact Hpq|]. constructor; assumption.
    + constructor; assumption.
Qed.

Lemma same_order_by_desc (l l' : list Paste) :
  Forall2 same_but_visibility l l' ->
  Forall2 same_but_visibility (order_by_desc key l) (order_by_desc key l').
Proof.
  induction 1; simpl; [constructor | now apply same_insert_desc].
Qed.

Lemma same_sorted_desc (l l' : list Paste) :
  Forall2 same_but_visibility l l' -> sorted_desc key l -> sorted_desc key l'.
Proof.
  unfold sorted_desc.
  induction 1 as [|a b l l' Hab H IH]; intros Hs; [constructor|].
  apply StronglySorted_inv in Hs. destruct Hs as [Hl Ha].
  constructor; [now apply IH|].
  clear IH Hl. induction H as [|c d l l' Hcd H IH]; [constructor|].
  inversion Ha; subst. constructor; [|now apply IH].
  rewrite <- (key_same _ _ Hab), <- (key_same _ _ Hcd). assumption.
Qed.

Lemma same_order_by_limit (limit : nat) (t1 t2 out : list Paste) :
  Forall2 same_but_visibility t1 t2 ->
  order_by_limit key limit t1 out ->
  exists out',
    order_by_limit key limit t2 out' /\ Forall2 same_but_visibility out out'.
Proof.
  intros Ht (l & Hperm & Hs & ->).
  destruct (Permutation_Forall2 Hperm Ht) as (l' & Hperm' & Hl).
  exists (firstn limit l'). split; [|now apply same_firstn].
  exists l'. split; [exact Hperm'|]. split; [|reflexivity].
  now apply (same_sorted_desc l l').
Qed.

Lemma same_listing_answer (t1 t2 : list Paste) (b : Body) :
  Forall2 same_but_visibility t1 t2 ->
  listing_answer key t1 b -> listing_answer key t2 b.
Proof.
  intros Ht (out & Hout & ->).
  destruct (same_order_by_limit _ _ _ _ Ht Hout) as (out' & Hout' & Hsame).
  exists out'. split; [exact Hout'|]. now rewrite (same_id_title _ _ Hsame).
Qed.

End KeyIgnoresVisibility.

Lemma content_length_same (p q : Paste) :
  same_but_visibility p q -> content_length p = content_length q.
Proof. intros (_ & Hc & _). unfold content_length. now rewrite Hc. Qed.

Lemma created_at_same (p q : Paste) :
  same_but_visibility p q -> created_at p = created_at q.
Proof. intros (_ & _ & _ & _ & _ & H). exact H. Qed.

Lemma fetch_all_id_title_eq (env : Env) (key : Paste -> Z) (w : World) :
  bind (fetch_all_id_title env key 10) (fun rows => ret (Entries (map entry_of rows))) w
  = (inr (Entries (map entry_of
                     (map id_title (firstn 10 (order_by_desc key (table w)))))),
     elapse env w).
Proof. reflexivity. Qed.

(** The answer the model computes for a listing is an admissible one, and
    the table is left as it was. *)
Lemma listing_runs (env : Env) (key : Paste -> Z) (w : World) :
  exists b w',
    bind (fetch_all_id_title env key 10)
      (fun rows => ret (Entries (map entry_of rows))) w = (inr b, w') /\
    table w' = table w /\
    listing_answer key (table w) b.
Proof.
  eexists _, _. split; [apply fetch_all_id_title_eq|]. split; [reflexivity|].
  eexists. split; [apply order_by_desc_admissible | reflexivity].
Qed.

Lemma entries_of_rows (out : list Paste) :
  map entry_of (map id_title out) = map (fun p => mkEntry (id p) (title p)) out.
Proof. rewrite map_map. reflexivity. Qed.

(** C3: [top_pastes] answers, leaves the table as it was, and its answer is
    an admissible one.  Every admissible answer lists at most 10 rows of the
    table (10, or all of them when there are fewer), each as its id and
    title only, by descending length of content, counted in characters; a
    row whose content is strictly longer than that of every other row comes
    first, wherever it sits in the table. *)
Theorem top_pastes_longest_first (env : Env) (w : World) :
  (exists b w',
     top_pastes env w = (inr b, w') /\
     table w' = table w /\
     listing_answer content_length (table w) b) /\
  (forall b,
     listing_answer content_length (table w) b ->
     exists out,
       b = Entries (map (fun p => mkEntry (id p) (title p)) out) /\
       (List.length out <= 10)%nat /\
       List.length out = Nat.min 10 (List.length (table w)) /\
       incl out (table w) /\
       sorted_desc content_length out /\
       (forall l1 p l2,
          table w = (l1 ++ p :: l2)%list ->
          Forall (fun q => (char_length (content q) < char_length (content p))%nat)
            (l1 ++ l2) ->
          exists rest, b = Entries (mkEntry (id p) (title p) :: rest))).
Proof.
  split; [apply listing_runs|].
  intros b (out & Hout & ->).
  destruct (order_by_limit_facts _ _ _ _ Hout) as (Hle & Hlen & Hincl & Hs & Hhead).
  exists out. rewrite entries_of_rows.
  repeat (split; [reflexivity || assumption|]).
  intros l1 p l2 Ht Hmax.
  destruct (Hhead l1 p l2 Ht) as [rest ->]; [|lia|].
  - eapply Forall_impl; [|exact Hmax]. unfold content_length. intros; lia.
  - simpl. eauto.
Qed.

(** Eleven pastes of growing length: the listing has 10 entries and starts
    with the last, longest one. *)
Lemma top_pastes_longest_first_witness :
  exists rest,
    fst (top_pastes counting_env
           (snd (serve counting_env eleven_creations (initial 0))))
    = inr (Entries (mkEntry "0000000a" "Untitled Paste" :: rest)) /\
    List.length rest = 9%nat.
Proof.
  set (w := snd (serve counting_env eleven_creations (initial 0))).
  destruct (top_pastes_longest_first counting_env w)
    as [(b & w' & Hrun & _ & Hans) Hall].
  destruct (Hall b Hans) as (out & Hb & _ & Hlen & _ & _ & Hhead).
  destruct (Hhead (firstn 10 (table w)) (nth 10 (table w) zero_row) [])
    as [rest Hrest].
  - vm_compute. reflexivity.
  - vm_compute. repeat constructor.
  - assert (Hid : id (nth 10 (table w) zero_row) = "0000000a")
      by (vm_compute; reflexivity).
    assert (Hti : title (nth 10 (table w) zero_row) = "Untitled Paste")
      by (vm_compute; reflexivity).
    rewrite Hid, Hti in Hrest.
    exists rest. rewrite Hrun. cbn [fst]. split; [now rewrite Hrest|].
    assert (Hn : List.length (map (fun p => mkEntry (id p) (title p)) out) = 10%nat).
    { rewrite length_map, Hlen. vm_compute. reflexivity. }
    rewrite Hrest in Hb. injection Hb as Hb. rewrite <- Hb in Hn.
    simpl in Hn. lia.
Defined.

Example char_length_samples :
  char_length "" = 0%nat /\ char_length "abc" = 3%nat /\
  char_length "€€" = 2%nat /\ char_length "naïve" = 5%nat /\
  char_length "😀!" = 2%nat.
Proof. repeat split; reflexivity. Qed.

(** Lengths are counted in characters: two euro signs, six bytes, are
    shorter than "abc". *)
Example top_pastes_counts_characters :
  fst (top_pastes quiet_env
         (mkWorld [mkPaste "00000001" "€€" "euro" "none" "never" "public" 1;
                   mkPaste "00000002" "abc" "abc" "none" "never" "public" 2] 5 2))
  = inr (Entries [mkEntry "00000002" "abc"; mkEntry "00000001" "euro"]).
Proof. reflexivity. Qed.

(** C4: [recent_pastes] answers, leaves the table as it was, and its answer
    is an admissible one.  Every admissible answer lists at most 10 rows of
    the table, each as its id and title only, by descending [created_at].
    After a creation that succeeds, if the new row's [created_at] is later
    than that of every row that was there, the new row comes first in every
    admissible answer. *)
Theorem recent_pastes_newest_first (env : Env) (w : World) :
  (exists b w',
     recent_pastes env w = (inr b, w') /\
     table w' = table w /\
     listing_answer created_at (table w) b) /\
  (forall b,
     listing_answer created_at (table w) b ->
     exists out,
       b = Entries (map (fun p => mkEntry (id p) (title p)) out) /\
       (List.length out <= 10)%nat /\
       List.length out = Nat.min 10 (List.length (table w)) /\
       incl out (table w) /\
       sorted_desc created_at out) /\
  (forall form resp w1,
     create_paste env form w = (inr resp, w1) ->
     exists row,
       table w1 = (table w ++ [row])%list /\
       resp = Url ("/paste/" ++ id row) /\
       (Forall (fun q => created_at q < created_at row) (table w) ->
        forall b,
          listing_answer created_at (table w1) b ->
          exists rest, b = Entries (mkEntry (id row) (title row) :: rest))).
Proof.
  split; [apply listing_runs|]. split.
  - intros b (out & Hout & ->).
    destruct (order_by_limit_facts _ _ _ _ Hout) as (Hle & Hlen & Hincl & Hs & _).
    exists out. rewrite entries_of_rows. tauto.
  - intros form resp w1 Hrun.
    destruct (create_paste_cases env form w)
      as [(e & w' & Hrun' & _) | (row & w' & Hrun' & Ht & _)];
      rewrite Hrun in Hrun'; [discriminate|].
    injection Hrun' as -> ->.
    exists row. split; [exact Ht|]. split; [reflexivity|].
    intros Hlater b (out & Hout & ->).
    destruct (order_by_limit_facts _ _ _ _ Hout) as (_ & _ & _ & _ & Hhead).
    destruct (Hhead (table w) row [] Ht) as [rest ->]; [|lia|].
    + now rewrite app_nil_r.
    + simpl. eauto.
Qed.

Lemma recent_pastes_newest_first_witness :
  exists w1 rest,
    create_paste quiet_env hello_form (mkWorld [note_row] 20 0)
      = (inr (Url "/paste/00000000"), w1) /\
    fst (recent_pastes quiet_env w1)
      = inr (Entries (mkEntry "00000000" "Untitled Paste" :: rest)).
Proof.
  set (w := mkWorld [note_row] 20 0).
  set (new := mkPaste "00000000" "hello world" "Untitled Paste" "none" "never"
                "public" 21).
  set (w1 := mkWorld [note_row; new] 22 1).
  assert (Hrun : create_paste quiet_env hello_form w = (inr (Url "/paste/00000000"), w1))
    by (vm_compute; reflexivity).
  destruct (recent_pastes_newest_first quiet_env w) as (_ & _ & Hnew).
  destruct (Hnew hello_form _ w1 Hrun) as (row & Ht & _ & Hfirst).
  assert (Hrow : row = new).
  { change (table w1) with ([note_row] ++ [new])%list in Ht.
    change (table w) with [note_row] in Ht.
    apply app_inj_tail in Ht. now symmetry. }
  subst row.
  destruct (recent_pastes_newest_first quiet_env w1) as ((b & w2 & Hlist & _ & Hans) & _).
  destruct (Hfirst ltac:(repeat constructor) b Hans) as [rest Hb].
  exists w1, rest. split; [exact Hrun|]. rewrite Hlist, Hb. reflexivity.
Defined.

(** C9: the two listings do not read the visibility column.  On two tables
    with the same rows in the same places, whose rows differ at most in
    their visibility, [top_pastes] gives the same response, [recent_pastes]
    gives the same response, and the admissible answers are the same. *)
Theorem listings_ignore_visibility (env : Env) (w1 w2 : World) :
  differ_only_in_visibility (table w1) (table w2) ->
  fst (top_pastes env w1) = fst (top_pastes env w2) /\
  fst (recent_pastes env w1) = fst (recent_pastes env w2) /\
  (forall b,
     listing_answer content_length (table w1) b <->
     listing_answer content_length (table w2) b) /\
  (forall b,
     listing_answer created_at (table w1) b <->
     listing_answer created_at (table w2) b).
Proof.
  intros H. pose proof (differ_only_in_visibility_sym _ _ H) as H'.
  unfold differ_only_in_visibility in H, H'.
  unfold top_pastes, recent_pastes. rewrite !fetch_all_id_title_eq.
  cbn [fst]. repeat split.
  - do 3 f_equal.
    apply same_id_title, same_firstn, same_order_by_desc;
      [apply content_length_same | exact H].
  - do 3 f_equal.
    apply same_id_title, same_firstn, same_order_by_desc;
      [apply created_at_same | exact H].
  - apply same_listing_answer; [apply content_length_same | exact H].
  - apply same_listing_answer; [apply content_length_same | exact H'].
  - apply same_listing_answer; [apply created_at_same | exact H].
  - apply same_listing_answer; [apply created_at_same | exact H'].
Qed.

Lemma listings_ignore_visibility_witness :
  fst (top_pastes quiet_env (mkWorld [zero_row; note_row] 20 2))
  = fst (top_pastes quiet_env (mkWorld [private_zero_row; note_row] 30 2)) /\
  fst (recent_pastes quiet_env (mkWorld [zero_row; note_row] 20 2))
  = fst (recent_pastes quiet_env (mkWorld [private_zero_row; note_row] 30 2)).
Proof.
  destruct (listings_ignore_visibility quiet_env
              (mkWorld [zero_row; note_row] 20 2)
              (mkWorld [private_zero_row; note_row] 30 2)) as (Htop & Hrecent & _).
  - unfold differ_only_in_visibility, same_but_visibility. simpl.
    repeat constructor.
  - split; [exact Htop | exact Hrecent].
Defined.

(** * Further properties of the handlers *)

(** ** Outcomes of a single request *)


(** What any one request does to the table: nothing, and then its response
    announces no paste; or it is a creation that appends the row it
    describes and answers with its url. *)
Lemma handle_effect (env : Env) (r : Request) (w : World) :
  exists resp w',
    handle env r w = (resp, w') /\
    ((table w' = table w /\ is_created resp = false) \/
     exists form row,
       r = POST_api_paste form /\
       table w' = (table w ++ [row])%list /\
       resp = inr (Url ("/paste/" ++ id row)) /\
       existsb (has_id (id row)) (table w) = false /\
       id row = Uuid.paste_id_of (urandom env (draws w)) /\
       form_content form = Some (content row) /\
       title row = Form_default "Untitled Paste" (form_title form) /\
       syntax row = Form_default "none" (form_syntax form) /\
       expires row = Form_default "never" (form_expires form) /\
       visibility row = Form_default "public" (form_visibility form)).
Proof.
  destruct r as [|form| |paste_id| |]; cbn [handle].
  - eexists _, _. split; [reflexivity|]. left. split; reflexivity.
  - destruct (create_paste_cases env form w)
      as [(e & w' & Hrun & Ht) | (row & w' & Hrun & Ht & Hf & Hi & Hc & Hti & Hsy & Hex & Hvi & _)];
      rewrite Hrun; eexists _, _; (split; [reflexivity|]).
    + left. split; [exact Ht | reflexivity].
    + right. exists form, row. tauto.
  - eexists _, _. split; [reflexivity|]. left. split; reflexivity.
  - rewrite view_paste_eq.
    destruct (find (has_id paste_id) (table w));
      eexists _, _; (split; [reflexivity|]); left; split; reflexivity.
  - eexists _, _. split; [reflexivity|]. left. split; reflexivity.
  - eexists _, _. split; [reflexivity|]. left. split; reflexivity.
Qed.

(** ** Runs of requests, continued *)

Lemma paste_id_of_well_formed (draw : N) :
  well_formed_id (Uuid.paste_id_of draw) = true.
Proof.
  destruct (hex_prefix_format 8 (Uuid.uuid4_of draw)) as [Hlen Hall]; [lia|].
  unfold well_formed_id, Uuid.paste_id_of. rewrite Hlen. cbn [Nat.eqb andb].
  apply forallb_forall. now apply Forall_forall.
Qed.

(** Over a run, the rows added are as many as the responses that announce a
    paste, and each has an id of the shape the generator makes. *)
Lemma serve_added (env : Env) (rs : list Request) :
  forall w resps w',
    serve env rs w = (resps, w') ->
    List.length resps = List.length rs /\
    exists added,
      table w' = (table w ++ added)%list /\
      List.length added = List.length (filter is_created resps) /\
      Forall (fun q => well_formed_id (id q) = true) added.
Proof.
  induction rs as [|r rs IH]; intros w resps w' Hrun; cbn [serve] in Hrun.
  - injection Hrun as <- <-. split; [reflexivity|].
    exists []. rewrite app_nil_r. repeat split. constructor.
  - destruct (handle_effect env r w) as (resp & w1 & Hr & Hcase).
    rewrite Hr in Hrun.
    destruct (serve env rs w1) as [resps' w2] eqn:Hrest.
    injection Hrun as <- <-.
    destruct (IH _ _ _ Hrest) as (Hlen & added & Ht & Hcount & Hwf).
    split; [cbn [List.length]; now rewrite Hlen|].
    destruct Hcase as [[Hsame Hno] | (form & row & _ & Hrow & Hresp & _ & Hid & _)].
    + exists added. rewrite Hsame in Ht. cbn [filter]. rewrite Hno. tauto.
    + exists (row :: added). rewrite Hrow, <- app_assoc in Ht.
      split; [exact Ht|]. rewrite Hresp. cbn [filter is_created List.length].
      split; [now rewrite Hcount|].
      constructor; [|exact Hwf]. rewrite Hid. apply paste_id_of_well_formed.
Qed.

(** Every request of a run was handled in some world, and the rows that
    were there after it are still the first rows at the end. *)
Lemma serve_in (env : Env) (rs : list Request) :
  forall w resps w',
    serve env rs w = (resps, w') ->
    forall r resp,
      In (r, resp) (combine rs resps) ->
      exists wa wb later,
        handle env r wa = (resp, wb) /\ table w' = (table wb ++ later)%list.
Proof.
  induction rs as [|r0 rs IH]; intros w resps w' Hrun r resp Hin;
    cbn [serve] in Hrun.
  - contradiction.
  - destruct (handle env r0 w) as [resp0 w1] eqn:Hr.
    destruct (serve env rs w1) as [resps' w2] eqn:Hrest.
    injection Hrun as <- <-. cbn [combine] in Hin.
    destruct Hin as [Heq | Hin].
    + injection Heq as <- <-.
      destruct (serve_rows env rs _ _ _ Hrest) as (added & Ht & _).
      exists w, w1, added. split; [exact Hr | exact Ht].
    + exact (IH _ _ _ Hrest _ _ Hin).
Qed.

Lemma find_unique (t : list Paste) (p : Paste) :
  NoDup (map id t) -> In p t -> find (has_id (id p)) t = Some p.
Proof.
  induction t as [|q t IH]; intros Hnd Hin; [contradiction|].
  cbn [map] in Hnd. apply NoDup_cons_iff in Hnd. destruct Hnd as [Hq Hnd].
  cbn [find]. destruct Hin as [->|Hin]; [now rewrite has_id_refl|].
  destruct (has_id (id p) q) eqn:E; [|now apply IH].
  exfalso. apply Hq. apply String.eqb_eq in E. rewrite E. now apply in_map.
Qed.

(** X3: every creation that succeeds adds exactly one row and nothing else
    adds or removes any: over a run the table grows by the number of
    responses that carry a url, and there is one response per request. *)
Theorem rows_count_creations
  (env : Env) (rs : list Request) (w : World) :
  let resps := fst (serve env rs w) in
  let w' := snd (serve env rs w) in
  List.length resps = List.length rs /\
  List.length (table w') =
    (List.length (table w) + List.length (filter is_created resps))%nat.
Proof.
  cbv zeta. destruct (serve env rs w) as [resps w'] eqn:Hrun. cbn [fst snd].
  destruct (serve_added env rs _ _ _ Hrun) as (Hlen & added & Ht & Hcount & _).
  split; [exact Hlen|]. now rewrite Ht, length_app, Hcount.
Qed.

(** X4: in every table built by requests from an empty one, no two rows
    share an id and every id is 8 characters among 0-9, a-f. *)
Theorem stored_ids_invariant (env : Env) (now : Z) (rs : list Request) :
  let w := snd (serve env rs (initial now)) in
  NoDup (map id (table w)) /\
  Forall (fun p => well_formed_id (id p) = true) (table w).
Proof.
  cbv zeta. destruct (serve env rs (initial now)) as [resps w] eqn:Hrun. cbn [snd].
  split.
  - destruct (serve_rows env rs _ _ _ Hrun) as (_ & _ & _ & _ & Hnd).
    apply Hnd. constructor.
  - destruct (serve_added env rs _ _ _ Hrun) as (_ & added & Ht & _ & Hwf).
    now rewrite Ht.
Qed.



(** X6: a paste created anywhere in a run can be looked up at the end of the
    run, whatever was requested in between, and the page shows what the
    creation was given: its content, each other field as given when it was
    given and not empty, and its default when it was left out or sent
    empty. *)
Theorem created_stays_viewable
  (env : Env) (rs : list Request) (w : World) (resps : list (Failure + Body))
  (w' : World) (form : Form) (i : string) :
  serve env rs w = (resps, w') ->
  In (POST_api_paste form, inr (Url ("/paste/" ++ i))) (combine rs resps) ->
  exists ctx w2,
    view_paste env i w' = (inr (PastePage ctx), w2) /\
    ctx_paste_id ctx = i /\
    form_content form = Some (ctx_content ctx) /\
    ctx_title ctx =
      match form_title form with
      | None => "Untitled Paste"
      | Some s => if String.eqb s "" then "Untitled Paste" else s
      end /\
    ctx_syntax ctx =
      match form_syntax form with
      | None => "none"
      | Some s => if String.eqb s "" then "none" else s
      end /\
    ctx_expires ctx =
      match form_expires form with
      | None => "never"
      | Some s => if String.eqb s "" then "never" else s
      end /\
    ctx_visibility ctx =
      match form_visibility form with
      | None => "public"
      | Some s => if String.eqb s "" then "public" else s
      end.
Proof.
  intros Hrun Hin.
  destruct (serve_in env rs _ _ _ Hrun _ _ Hin) as (wa & wb & later & Hh & Ht).
  cbn [handle] in Hh.
  destruct (create_paste_cases env form wa)
    as [(e & w1 & Hc & _) | (row & w1 & Hc & Hrow & Hfresh & _ & Hco & Hti & Hsy & Hex & Hvi & _)];
    rewrite Hh in Hc; [discriminate|].
  injection Hc as Hurl <-. subst i.
  assert (Hfind : find (has_id (id row)) (table w') = Some row).
  { rewrite Ht, Hrow, <- app_assoc, find_app_fresh by exact Hfresh.
    cbn [app find]. now rewrite has_id_refl. }
  rewrite view_paste_eq, Hfind. eexists _, _. split; [reflexivity|].
  cbn [ctx_paste_id ctx_content ctx_title ctx_syntax ctx_expires ctx_visibility].
  rewrite Hti, Hsy, Hex, Hvi. unfold Form_default. tauto.
Qed.

(** The second creation of [mixed_run] gives a title, sends its syntax
    empty and leaves its expires out; two requests later its page shows the
    title and the two defaults. *)
Lemma created_stays_viewable_witness :
  exists ctx w2,
    view_paste fresh_later_env "80000000" (mkWorld [zero_row; note_row] 16 2)
      = (inr (PastePage ctx), w2) /\
    ctx_paste_id ctx = "80000000" /\
    form_content note_form = Some (ctx_content ctx) /\
    ctx_title ctx = "Euro" /\ ctx_syntax ctx = "none" /\
    ctx_expires ctx = "never" /\ ctx_visibility ctx = "private".
Proof.
  apply (created_stays_viewable fresh_later_env mixed_run (mkWorld [zero_row] 10 0)
           [inl (IntegrityError "00000000");
            inr (Url "/paste/80000000");
            inr (PastePage
                   (mkPasteContext "00000000" "Untitled Paste" "first"
                      "none" "never" "public" 5));
            inr (Entries [mkEntry "80000000" "Euro"; mkEntry "00000000" "Untitled Paste"])]
           (mkWorld [zero_row; note_row] 16 2) note_form "80000000").
  - vm_compute. reflexivity.
  - cbn [mixed_run combine]. right. left. reflexivity.
Defined.

(** ** Listings, continued *)

Section OrderByUnique.

Variable key : Paste -> Z.

Lemma sorted_desc_tail (a : Paste) (l : list Paste) :
  sorted_desc key (a :: l) -> sorted_desc key l.
Proof. intros H. now apply StronglySorted_inv in H. Qed.

(** With pairwise distinct keys there is one descending arrangement. *)
Lemma sorted_desc_unique (l1 : list Paste) :
  forall l2,
    NoDup (map key l1) ->
    sorted_desc key l1 -> sorted_desc key l2 -> Permutation l1 l2 -> l1 = l2.
Proof.
  induction l1 as [|a l1 IH]; intros l2 Hnd Hs1 Hs2 Hperm.
  - apply Permutation_nil in Hperm. now subst.
  - cbn [map] in Hnd. apply NoDup_cons_iff in Hnd. destruct Hnd as [Ha Hnd].
    assert (Hmax : Forall (fun q => key q < key a) ([] ++ l1)).
    { cbn [app]. apply Forall_forall. intros q Hq.
      pose proof Hs1 as Hs1'. apply StronglySorted_inv in Hs1'.
      destruct Hs1' as [_ Hall]. rewrite Forall_forall in Hall.
      specialize (Hall q Hq). cbv beta in Hall.
      assert (key q <> key a).
      { intros E. apply Ha. rewrite <- E. now apply in_map. }
      lia. }
    destruct (strict_max_is_head key [] l1 l2 a Hperm Hs2 Hmax) as [rest ->].
    f_equal. apply IH.
    + exact Hnd.
    + now apply sorted_desc_tail in Hs1.
    + now apply sorted_desc_tail in Hs2.
    + now apply Permutation_cons_inv in Hperm.
Qed.

Lemma order_by_limit_unique (limit : nat) (rows out : list Paste) :
  NoDup (map key rows) ->
  order_by_limit key limit rows out ->
  out = firstn limit (order_by_desc key rows).
Proof.
  intros Hnd (l & Hperm & Hs & ->). f_equal.
  symmetry. apply sorted_desc_unique.
  - apply (Permutation_NoDup (Permutation_map key (order_by_desc_perm key rows)) Hnd).
  - apply order_by_desc_sorted.
  - exact Hs.
  - now rewrite <- (order_by_desc_perm key rows).
Qed.

Lemma increasing_keys_distinct (rows : list Paste) :
  StronglySorted (fun a b => key a < key b) rows -> NoDup (map key rows).
Proof.
  induction 1 as [|a l Hl IH Ha]; cbn [map]; constructor; [|exact IH].
  intros Hin. apply in_map_iff in Hin. destruct Hin as (q & Hq & Hin).
  rewrite Forall_forall in Ha. specialize (Ha q Hin). cbv beta in Ha. lia.
Qed.

Lemma sorted_desc_snoc (l : list Paste) (a : Paste) :
  sorted_desc key l -> Forall (fun q => key a <= key q) l ->
  sorted_desc key (l ++ [a]).
Proof.
  unfold sorted_desc.
  induction l as [|x l IH]; intros Hs Ha; cbn [app].
  - repeat constructor.
  - apply StronglySorted_inv in Hs. destruct Hs as [Hl Hx].
    inversion Ha as [|? ? Hxa Ha']; subst.
    constructor; [now apply IH|].
    apply Forall_app. split; [exact Hx | now constructor].
Qed.

(** Rows stored by increasing key come out in reverse storage order. *)
Lemma order_by_desc_increasing (rows : list Paste) :
  StronglySorted (fun a b => key a < key b) rows ->
  order_by_desc key rows = rev rows.
Proof.
  intros Hinc.
  apply sorted_desc_unique.
  - apply (Permutation_NoDup (Permutation_map key (order_by_desc_perm key rows))).
    now apply increasing_keys_distinct.
  - apply order_by_desc_sorted.
  - induction Hinc as [|a l Hl IH Ha]; cbn [rev]; [constructor|].
    apply sorted_desc_snoc; [exact IH|].
    apply Forall_forall. intros q Hq. apply in_rev in Hq.
    rewrite Forall_forall in Ha. specialize (Ha q Hq). cbv beta in Ha. lia.
  - rewrite <- (order_by_desc_perm key rows). apply Permutation_rev.
Qed.

(** The rows of an answer are rows of the table, without repetition when
    the ids of the table are distinct, and all of them when the table has no
    more rows than the limit. *)
Lemma order_by_limit_rows (limit : nat) (rows out : list Paste) :
  order_by_limit key limit rows out ->
  (NoDup (map id rows) -> NoDup (map id out)) /\
  ((List.length rows <= limit)%nat -> Permutation rows out).
Proof.
  intros (l & Hperm & _ & ->). split.
  - intros Hnd.
    assert (Hl : NoDup (map id l))
      by exact (Permutation_NoDup (Permutation_map id Hperm) Hnd).
    rewrite <- (firstn_skipn limit l), map_app in Hl.
    now apply NoDup_app_remove_r in Hl.
  - intros Hlen. rewrite firstn_all2; [exact Hperm|].
    now rewrite <- (Permutation_length Hperm).
Qed.

End OrderByUnique.

Lemma listing_answer_entries (key : Paste -> Z) (t : list Paste) (b : Body) :
  listing_answer key t b <->
  exists out, order_by_limit key 10 t out /\ b = Entries (map listed out).
Proof.
  unfold listing_answer.
  split; intros (out & Hout & ->); exists out; (split; [exact Hout|]);
    now rewrite entries_of_rows.
Qed.

(** X7: every entry of a listing links to a paste: when the ids of the table
    are distinct, as they are in every table built by requests, the entries
    of any answer of [top_pastes] or [recent_pastes] have distinct ids, and
    [view_paste] on the id of an entry renders a page with that id and the
    title the entry shows. *)
Theorem listed_pastes_are_viewable (env : Env) (w : World) (b : Body) :
  NoDup (map id (table w)) ->
  listing_answer content_length (table w) b \/
  listing_answer created_at (table w) b ->
  exists es,
    b = Entries es /\
    NoDup (map entry_id es) /\
    forall e,
      In e es ->
      exists ctx w2,
        view_paste env (entry_id e) w = (inr (PastePage ctx), w2) /\
        ctx_paste_id ctx = entry_id e /\
        ctx_title ctx = entry_title e.
Proof.
  intros Hnd Hans.
  assert (H : exists key out,
             order_by_limit key 10 (table w) out /\ b = Entries (map listed out)).
  { destruct Hans as [Hans|Hans]; apply listing_answer_entries in Hans;
      destruct Hans as (out & Hout & Hb); eauto. }
  destruct H as (key & out & Hout & ->).
  exists (map listed out). split; [reflexivity|].
  destruct (order_by_limit_rows key _ _ _ Hout) as [Hids _].
  destruct (order_by_limit_facts key _ _ _ Hout) as (_ & _ & Hincl & _).
  split.
  - rewrite map_map. cbn [listed entry_id]. now apply Hids.
  - intros e He. apply in_map_iff in He. destruct He as (p & <- & Hp).
    cbn [listed entry_id entry_title].
    rewrite view_paste_eq, (find_unique _ _ Hnd (Hincl p Hp)).
    eexists _, _. split; [reflexivity|]. split; reflexivity.
Qed.

Lemma listed_pastes_are_viewable_witness :
  exists es,
    Entries [mkEntry "80000000" "Euro"; mkEntry "00000000" "Untitled Paste"] = Entries es /\
    NoDup (map entry_id es) /\
    forall e,
      In e es ->
      exists ctx w2,
        view_paste quiet_env (entry_id e) (mkWorld [zero_row; note_row] 16 2)
          = (inr (PastePage ctx), w2) /\
        ctx_paste_id ctx = entry_id e /\
        ctx_title ctx = entry_title e.
Proof.
  apply (listed_pastes_are_viewable quiet_env (mkWorld [zero_row; note_row] 16 2)).
  - cbn. repeat constructor; cbn; intuition discriminate.
  - right. exists [note_row; zero_row]. split; [|reflexivity].
    exists [note_row; zero_row]. split; [apply perm_swap|].
    split; [|reflexivity]. unfold sorted_desc. repeat constructor; cbn; lia.
Defined.

(** X8: a table of at most 10 rows is listed whole: every answer of
    [top_pastes] and of [recent_pastes] has exactly one entry per row, so
    the two listings show the same entries, in their own orders. *)
Theorem small_table_is_listed_whole (w : World) (es : list Entry) :
  (List.length (table w) <= 10)%nat ->
  listing_answer content_length (table w) (Entries es) \/
  listing_answer created_at (table w) (Entries es) ->
  Permutation (map listed (table w)) es.
Proof.
  intros Hlen Hans.
  assert (H : exists key out,
             order_by_limit key 10 (table w) out /\
             Entries es = Entries (map listed out)).
  { destruct Hans as [Hans|Hans]; apply listing_answer_entries in Hans;
      destruct Hans as (out & Hout & Hb); eauto. }
  destruct H as (key & out & Hout & Hes). injection Hes as ->.
  apply Permutation_map.
  now apply (proj2 (order_by_limit_rows key _ _ _ Hout)).
Qed.

Lemma small_table_is_listed_whole_witness :
  Permutation (map listed [zero_row; note_row])
    [mkEntry "80000000" "Euro"; mkEntry "00000000" "Untitled Paste"].
Proof.
  apply (small_table_is_listed_whole (mkWorld [zero_row; note_row] 16 2)).
  - cbn. lia.
  - right. exists [note_row; zero_row]. split; [|reflexivity].
    exists [note_row; zero_row]. split; [apply perm_swap|].
    split; [|reflexivity]. unfold sorted_desc. repeat constructor; cbn; lia.
Defined.

(** X9: when no two rows have the same key there is nothing left open in a
    listing: the only admissible answer of [top_pastes] over contents of
    pairwise different lengths, and of [recent_pastes] over pairwise
    different creation times, is the response the handler computes. *)
Theorem listings_without_ties (env : Env) (w : World) (b : Body) :
  (NoDup (map content_length (table w)) ->
   listing_answer content_length (table w) b ->
   fst (top_pastes env w) = inr b) /\
  (NoDup (map created_at (table w)) ->
   listing_answer created_at (table w) b ->
   fst (recent_pastes env w) = inr b).
Proof.
  unfold top_pastes, recent_pastes. rewrite !fetch_all_id_title_eq. cbn [fst].
  split; intros Hnd (out & Hout & ->);
    now rewrite (order_by_limit_unique _ _ _ _ Hnd Hout).
Qed.

Lemma listings_without_ties_witness :
  fst (top_pastes quiet_env (mkWorld [zero_row; note_row] 16 2))
  = inr (Entries [mkEntry "00000000" "Untitled Paste"; mkEntry "80000000" "Euro"]) /\
  fst (recent_pastes quiet_env (mkWorld [zero_row; note_row] 16 2))
  = inr (Entries [mkEntry "80000000" "Euro"; mkEntry "00000000" "Untitled Paste"]).
Proof.
  split.
  - apply (proj1 (listings_without_ties quiet_env (mkWorld [zero_row; note_row] 16 2) _)).
    + cbn. repeat constructor; cbn; intuition discriminate.
    + exists [zero_row; note_row]. split; [|reflexivity].
      exists [zero_row; note_row]. split; [reflexivity|].
      split; [|reflexivity]. unfold sorted_desc.
      repeat first [apply SSorted_nil | apply SSorted_cons | apply Forall_nil
                   | apply Forall_cons | (vm_compute; discriminate)].
  - apply (proj2 (listings_without_ties quiet_env (mkWorld [zero_row; note_row] 16 2) _)).
    + cbn. repeat constructor; cbn; intuition discriminate.
    + exists [note_row; zero_row]. split; [|reflexivity].
      exists [note_row; zero_row]. split; [apply perm_swap|].
      split; [|reflexivity]. unfold sorted_desc. repeat constructor; cbn; lia.
Defined.

(** X10: pastes stored in the order of their keys are listed backwards.
    When every row was created strictly later than the rows before it,
    [recent_pastes] answers with the last 10 rows of the table, the last one
    first; when every row has strictly longer content, counted in
    characters, than the rows before it, [top_pastes] answers the same.  No
    other answer is admissible. *)
Theorem last_ten_backwards (env : Env) (w : World) :
  (StronglySorted (fun a b => created_at a < created_at b) (table w) ->
   fst (recent_pastes env w)
     = inr (Entries (map listed (firstn 10 (rev (table w))))) /\
   forall b,
     listing_answer created_at (table w) b ->
     b = Entries (map listed (firstn 10 (rev (table w))))) /\
  (StronglySorted
     (fun a b => (char_length (content a) < char_length (content b))%nat)
     (table w) ->
   fst (top_pastes env w)
     = inr (Entries (map listed (firstn 10 (rev (table w))))) /\
   forall b,
     listing_answer content_length (table w) b ->
     b = Entries (map listed (firstn 10 (rev (table w))))).
Proof.
  unfold top_pastes, recent_pastes. rewrite !fetch_all_id_title_eq. cbn [fst].
  rewrite !entries_of_rows. fold listed.
  split; intros Hinc.
  - rewrite (order_by_desc_increasing created_at _ Hinc).
    split; [reflexivity|].
    intros b Hb. apply listing_answer_entries in Hb. destruct Hb as (out & Hout & ->).
    rewrite (order_by_limit_unique created_at _ _ _
               (increasing_keys_distinct created_at _ Hinc) Hout).
    now rewrite (order_by_desc_increasing created_at _ Hinc).
  - assert (Hinc' : StronglySorted
                      (fun a b => content_length a < content_length b) (table w)).
    { clear -Hinc. induction Hinc as [|a l Hl IH Ha]; constructor; [exact IH|].
      eapply Forall_impl; [|exact Ha]. unfold content_length. intros; lia. }
    rewrite (order_by_desc_increasing content_length _ Hinc').
    split; [reflexivity|].
    intros b Hb. apply listing_answer_entries in Hb. destruct Hb as (out & Hout & ->).
    rewrite (order_by_limit_unique content_length _ _ _
               (increasing_keys_distinct content_length _ Hinc') Hout).
    now rewrite (order_by_desc_increasing content_length _ Hinc').
Qed.

(** Eleven pastes created in sequence with growing contents: both listings
    show the last ten, the last one first. *)
Lemma last_ten_backwards_witness :
  let w := snd (serve counting_env eleven_creations (initial 0)) in
  fst (recent_pastes counting_env w)
    = inr (Entries (map listed (firstn 10 (rev (table w))))) /\
  fst (top_pastes counting_env w)
    = inr (Entries (map listed (firstn 10 (rev (table w))))) /\
  map entry_id (map listed (firstn 10 (rev (table w))))
    = ["0000000a"; "00000009"; "00000008"; "00000007"; "00000006";
       "00000005"; "00000004"; "00000003"; "00000002"; "00000001"].
Proof.
  cbv zeta.
  set (w := snd (serve counting_env eleven_creations (initial 0))).
  destruct (last_ten_backwards counting_env w) as [Hrecent Htop].
  split; [|split].
  - apply Hrecent. vm_compute. repeat constructor.
  - apply Htop. vm_compute. repeat constructor.
  - vm_compute. reflexivity.
Defined.

(** ** What a listing reads *)

Section SameListed.

Variable key : Paste -> Z.

Lemma same_listed_insert (p q : Paste) (l l' : list Paste) :
  same_listed key p q ->
  Forall2 (same_listed key) l l' ->
  Forall2 (same_listed key) (insert_desc key p l) (insert_desc key q l').
Proof.
  intros Hpq H.
  induction H as [|a b l l' Hab H IH]; cbn [insert_desc].
  - constructor; [exact Hpq | constructor].
  - destruct Hpq as (Hi & Ht & Hk). destruct Hab as (Hi' & Ht' & Hk').
    rewrite Hk, Hk'.
    destruct (key b <=? key q).
    + constructor; [now repeat split|]. constructor; [now repeat split | exact H].
    + constructor; [now repeat split|]. apply IH.
Qed.

Lemma same_listed_order_by (l l' : list Paste) :
  Forall2 (same_listed key) l l' ->
  Forall2 (same_listed key) (order_by_desc key l) (order_by_desc key l').
Proof.
  induction 1; cbn [order_by_desc]; [constructor | now apply same_listed_insert].
Qed.

Lemma same_listed_firstn (n : nat) (l l' : list Paste) :
  Forall2 (same_listed key) l l' ->
  Forall2 (same_listed key) (firstn n l) (firstn n l').
Proof.
  intros H. revert n.
  induction H; intros [|n]; cbn [firstn]; constructor; auto.
Qed.

Lemma same_listed_entries (l l' : list Paste) :
  Forall2 (same_listed key) l l' -> map id_title l = map id_title l'.
Proof.
  induction 1 as [|p q l l' (Hid & Hti & _) _ IH]; cbn [map]; [reflexivity|].
  unfold id_title at 1 3. now rewrite Hid, Hti, IH.
Qed.

Lemma same_listed_sorted (l l' : list Paste) :
  Forall2 (same_listed key) l l' -> sorted_desc key l -> sorted_desc key l'.
Proof.
  unfold sorted_desc.
  induction 1 as [|a b l l' Hab H IH]; intros Hs; [constructor|].
  apply StronglySorted_inv in Hs. destruct Hs as [Hl Ha].
  constructor; [now apply IH|].
  destruct Hab as (_ & _ & Hk).
  clear IH Hl. induction H as [|c d l l' Hcd H IH]; [constructor|].
  inversion Ha; subst. destruct Hcd as (_ & _ & Hk').
  constructor; [|now apply IH]. rewrite <- Hk, <- Hk'. assumption.
Qed.

Lemma same_listed_answer (t1 t2 : list Paste) (b : Body) :
  Forall2 (same_listed key) t1 t2 ->
  listing_answer key t1 b -> listing_answer key t2 b.
Proof.
  intros Ht (out & (l & Hperm & Hs & ->) & ->).
  destruct (Permutation_Forall2 Hperm Ht) as (l' & Hperm' & Hl).
  exists (firstn 10 l'). split.
  - exists l'. split; [exact Hperm'|]. split; [|reflexivity].
    now apply (same_listed_sorted l l').
  - now rewrite (same_listed_entries _ _ (same_listed_firstn 10 _ _ Hl)).
Qed.

End SameListed.

(** X11: a listing reads three things of a row: its id, its title and its
    key.  On two tables whose rows agree, place by place, on id, title and
    length of content, [top_pastes] gives the same response, whatever the
    texts, creation times and other columns are; on two tables whose rows
    agree on id, title and creation time, [recent_pastes] gives the same
    response, whatever the contents are. *)
Theorem listings_read_three_columns (env : Env) (w1 w2 : World) :
  (Forall2 (same_listed content_length) (table w1) (table w2) ->
   fst (top_pastes env w1) = fst (top_pastes env w2) /\
   forall b,
     listing_answer content_length (table w1) b ->
     listing_answer content_length (table w2) b) /\
  (Forall2 (same_listed created_at) (table w1) (table w2) ->
   fst (recent_pastes env w1) = fst (recent_pastes env w2) /\
   forall b,
     listing_answer created_at (table w1) b ->
     listing_answer created_at (table w2) b).
Proof.
  unfold top_pastes, recent_pastes. rewrite !fetch_all_id_title_eq. cbn [fst].
  split; intros H; (split; [|intros b; now apply same_listed_answer]);
    do 3 f_equal;
    eapply same_listed_entries, same_listed_firstn, same_listed_order_by; exact H.
Qed.

Lemma listings_read_three_columns_witness :
  fst (top_pastes quiet_env (mkWorld [zero_row; note_row] 16 2))
  = fst (top_pastes quiet_env
           (mkWorld [mkPaste "00000000" "€uros" "Untitled Paste" "python" "1h" "private" 99;
                     mkPaste "80000000" "ab" "Euro" "c" "1d" "unlisted" 0] 50 7)) /\
  fst (recent_pastes quiet_env (mkWorld [zero_row; note_row] 16 2))
  = fst (recent_pastes quiet_env
           (mkWorld [mkPaste "00000000" "something else" "Untitled Paste" "python" "1h" "private" 5;
                     mkPaste "80000000" "text" "Euro" "c" "1d" "unlisted" 13] 50 7)).
Proof.
  split.
  - apply (proj1 (listings_read_three_columns quiet_env _ _)).
    repeat constructor.
  - apply (proj2 (listings_read_three_columns quiet_env _ _)).
    repeat constructor.
Defined.

(** ** The bits of a draw that make the id *)

Lemma testbit_small (a n k : N) :
  (a < 2 ^ n)%N -> (n <= k)%N -> N.testbit a k = false.
Proof.
  intros Ha Hk. destruct (N.eq_dec a 0) as [->|Hz]; [apply N.bits_0|].
  apply N.bits_above_log2. apply N.log2_lt_pow2 in Ha; lia.
Qed.

(** Setting the version and the variant leaves the top 32 bits alone. *)
Lemma set_version4_high (x : N) :
  N.shiftr (Uuid.set_version4 x) 96 = N.shiftr x 96.
Proof.
  apply N.bits_inj. intros k. rewrite !N.shiftr_spec'.
  unfold Uuid.set_version4.
  repeat (rewrite N.lor_spec || rewrite N.ldiff_spec).
  rewrite (testbit_small (N.shiftl 0xc000 48) 96),
          (testbit_small (N.shiftl 0x8000 48) 96),
          (testbit_small (N.shiftl 0xf000 64) 96),
          (testbit_small (N.shiftl 4 76) 96) by (reflexivity || lia).
  now destruct (N.testbit x (k + 96)).
Qed.

Lemma nibble_high (u : N) (j : nat) :
  Uuid.nibble u (24 + j) = Uuid.nibble (N.shiftr u 96) j.
Proof.
  unfold Uuid.nibble. rewrite N.shiftr_shiftr. do 2 f_equal. lia.
Qed.

Lemma hex_first8 (u : N) :
  firstn 8 (Uuid.hex u)
  = map (fun j => Uuid.hexdigit (Uuid.nibble (N.shiftr u 96) j)) (rev (seq 0 8)).
Proof.
  unfold Uuid.hex. rewrite firstn_map.
  change (firstn 8 (rev (seq 0 32))) with (map (Nat.add 24) (rev (seq 0 8))).
  rewrite map_map. apply map_ext. intros j. now rewrite nibble_high.
Qed.

Lemma uuid4_top32 (draw : N) : N.shiftr (Uuid.uuid4_of draw) 96 = top32 draw.
Proof.
  unfold Uuid.uuid4_of, Uuid.from_bytes16, top32.
  now rewrite set_version4_high, N.shiftr_div_pow2.
Qed.

Lemma top32_range (draw : N) : (top32 draw < 2 ^ 32)%N.
Proof.
  unfold top32. apply N.Div0.div_lt_upper_bound.
  change (2 ^ 96 * 2 ^ 32)%N with (2 ^ 128)%N.
  apply N.mod_upper_bound. discriminate.
Qed.

(** The id is the numeral of the top 32 bits of the draw. *)
Lemma paste_id_of_top32 (draw : N) :
  Uuid.paste_id_of draw
  = string_of_list_ascii
      (map (fun j => Uuid.hexdigit (Uuid.nibble (top32 draw) j)) (rev (seq 0 8))).
Proof.
  unfold Uuid.paste_id_of, Uuid.hex_prefix.
  now rewrite hex_first8, uuid4_top32.
Qed.

Lemma paste_id_reads_top32 (draw : N) :
  Uuid.of_hex (list_ascii_of_string (Uuid.paste_id_of draw)) = top32 draw.
Proof.
  rewrite paste_id_of_top32, list_ascii_of_string_of_list.
  unfold Uuid.of_hex. rewrite of_hex_digits.
  change (16 ^ N.of_nat 8)%N with (2 ^ 32)%N.
  rewrite N.mod_small by apply top32_range. reflexivity.
Qed.

(** X13: the id of a paste is the first four of the sixteen random bytes,
    written in hexadecimal: read as a numeral it is those 32 bits, so two
    draws give the same id exactly when their first four bytes agree, the
    version and variant bits of the UUID never reach it, and every 32-bit
    value is the id of some draw. *)
Theorem paste_id_is_first_four_bytes :
  (forall draw,
     Uuid.of_hex (list_ascii_of_string (Uuid.paste_id_of draw)) = top32 draw) /\
  (forall d1 d2,
     Uuid.paste_id_of d1 = Uuid.paste_id_of d2 <-> top32 d1 = top32 d2) /\
  (forall n,
     (n < 2 ^ 32)%N ->
     Uuid.of_hex (list_ascii_of_string (Uuid.paste_id_of (n * 2 ^ 96))) = n).
Proof.
  pose proof paste_id_reads_top32 as Hread.
  split; [exact Hread|]. split.
  - intros d1 d2. split.
    + intros H. rewrite <- (Hread d1), <- (Hread d2). now rewrite H.
    + intros H. rewrite !paste_id_of_top32. now rewrite H.
  - intros n Hn. rewrite Hread. unfold top32.
    rewrite N.mod_small.
    + apply N.div_mul. discriminate.
    + change (2 ^ 128)%N with (2 ^ 32 * 2 ^ 96)%N.
      apply N.mul_lt_mono_pos_r; [reflexivity | exact Hn].
Qed.

Lemma paste_id_is_first_four_bytes_witness :
  Uuid.of_hex (list_ascii_of_string (Uuid.paste_id_of (0xcafe0042 * 2 ^ 96))) = 0xcafe0042%N /\
  Uuid.paste_id_of (0xcafe0042 * 2 ^ 96) = "cafe0042".
Proof.
  split.
  - apply (proj2 (proj2 paste_id_is_first_four_bytes) 0xcafe0042%N). reflexivity.
  - reflexivity.
Defined.

(** ** Creations in a row *)

Lemma NoDup_map_inj {A B : Type} (f : A -> B) (l : list A) (x y : A) :
  NoDup (map f l) -> In x l -> In y l -> f x = f y -> x = y.
Proof.
  induction l as [|a l IH]; intros Hnd Hx Hy Hf; [contradiction|].
  cbn [map] in Hnd. apply NoDup_cons_iff in Hnd. destruct Hnd as [Ha Hnd].
  destruct Hx as [->|Hx], Hy as [->|Hy]; trivial.
  - exfalso. apply Ha. rewrite Hf. now apply in_map.
  - exfalso. apply Ha. rewrite <- Hf. now apply in_map.
  - now apply IH.
Qed.

(** Creations whose content is bound and whose fields hold no U+0000,
    served from a world whose ids are those of the draws made so far: while
    the draws differ in their first four bytes each creation succeeds and
    stores the id of its own draw. *)
Lemma serve_creations (env : Env) (forms : list Form) :
  forall w resps w',
    Forall (fun f =>
              form_storable f = true /\
              exists c, form_content f = Some c /\
                        (c = "" -> empty_required_is_missing env = false)) forms ->
    map id (table w) = map (kth_id env) (seq 0 (draws w)) ->
    NoDup (map (kth_top32 env) (seq 0 (draws w + List.length forms))) ->
    serve env (map POST_api_paste forms) w = (resps, w') ->
    Forall (fun r => status_of r = 200%nat) resps /\
    map id (table w') = map (kth_id env) (seq 0 (draws w + List.length forms)) /\
    draws w' = (draws w + List.length forms)%nat.
Proof.
  induction forms as [|form forms IH]; intros w resps w' Hc Hids Hnd Hrun;
    cbn [map serve List.length] in *.
  - injection Hrun as <- <-. rewrite Nat.add_0_r. repeat split; [constructor | exact Hids].
  - inversion Hc as [|? ? Hform Hc']; subst.
    destruct Hform as (Hst & c & Hcontent & Hbound).
    assert (Hfresh : existsb (has_id (kth_id env (draws w))) (table w) = false).
    { destruct (existsb _ (table w)) eqn:E; [|reflexivity]. exfalso.
      apply existsb_has_id_In in E. rewrite Hids in E.
      apply in_map_iff in E. destruct E as (k & Hk & Hin).
      apply in_seq in Hin.
      assert (Heq : k = draws w).
      { apply (NoDup_map_inj (kth_top32 env) _ k (draws w) Hnd).
        - apply in_seq. lia.
        - apply in_seq. lia.
        - unfold kth_top32, kth_id in *.
          rewrite <- !paste_id_reads_top32. now rewrite Hk. }
      lia. }
    cbn [handle] in Hrun.
    rewrite create_paste_eq, Hcontent, (content_is_bound env c Hbound) in Hrun.
    cbv zeta in Hrun. unfold kth_id in Hfresh.
    rewrite Hfresh, (pg_accepts_created form c _ _ Hcontent Hst) in Hrun.
    match type of Hrun with
    | (let (_, _) := serve _ _ ?w1 in _) = _ =>
        destruct (serve env (map POST_api_paste forms) w1) as [resps' w2] eqn:Hrest
    end.
    injection Hrun as <- <-.
    apply IH in Hrest; [|exact Hc'| |].
    + cbn [draws elapse table] in Hrest.
      replace (S (draws w) + List.length forms)%nat
        with (draws w + S (List.length forms))%nat in Hrest by lia.
      destruct Hrest as (H200 & Hids' & Hdraws).
      split; [constructor; [reflexivity | exact H200]|]. split; assumption.
    + cbn [draws elapse table id]. rewrite map_app, Hids, seq_S, map_app.
      reflexivity.
    + cbn [draws elapse].
      now replace (S (draws w) + List.length forms)%nat
        with (draws w + S (List.length forms))%nat by lia.
Qed.

(** X15: from an empty table, a run of creations whose content is bound
    (sent, and not empty unless the release binds the empty string) and
    whose fields hold no U+0000, served with draws that differ pairwise in
    their first four bytes, answers 200 to every one of them and stores one
    row per creation, the [k]-th row under the id of the [k]-th draw. *)
Theorem distinct_draws_all_created (env : Env) (now : Z) (forms : list Form) :
  Forall (fun f =>
            form_storable f = true /\
            exists c, form_content f = Some c /\
                      (c = "" -> empty_required_is_missing env = false)) forms ->
  NoDup (map (kth_top32 env) (seq 0 (List.length forms))) ->
  Forall (fun r => status_of r = 200%nat)
    (fst (serve env (map POST_api_paste forms) (initial now))) /\
  map id (table (snd (serve env (map POST_api_paste forms) (initial now))))
    = map (kth_id env) (seq 0 (List.length forms)).
Proof.
  intros Hc Hnd.
  destruct (serve env (map POST_api_paste forms) (initial now)) as [resps w'] eqn:Hrun.
  cbn [fst snd].
  destruct (serve_creations env forms (initial now) _ _ Hc eq_refl Hnd Hrun)
    as (H200 & Hids & _).
  split; [exact H200 | exact Hids].
Qed.

Lemma distinct_draws_all_created_witness :
  Forall (fun r => status_of r = 200%nat)
    (fst (serve counting_env
            (map POST_api_paste [hello_form; note_form; empty_title_form])
            (initial 0))) /\
  map id (table (snd (serve counting_env
                        (map POST_api_paste [hello_form; note_form; empty_title_form])
                        (initial 0))))
    = ["00000000"; "00000001"; "00000002"].
Proof.
  apply (distinct_draws_all_created counting_env 0
           [hello_form; note_form; empty_title_form]).
  - repeat constructor;
      try (eexists; split; [reflexivity | discriminate]).
  - vm_compute. repeat constructor; cbn; intuition discriminate.
Defined.
